(** * house_watch: the poll / extract / diff / notify cycle and its state file

    A shallow embedding of [house_watch.py].  Python strings are [string],
    the state dictionary is a [gmap] keyed by strings, Python sets of
    fingerprints are [gset string], the file system is a [gmap] from paths to
    nodes, and everything the program prints or sends is collected in an
    event trace.  The library functions the program calls but does not define
    ([html.unescape], [re.findall], [urllib.parse.urlparse], [hashlib.sha256])
    are parameters of the development. *)

From Stdlib Require Import Ascii String ZArith.
From stdpp Require Import gmap strings list fin_maps fin_sets pretty.

(** ** Python string primitives used by the extractor *)

Module PyStr.

(** [s.split(sep)[0]] for a non-empty [sep]: the part of [s] before the
    first occurrence of [sep], all of [s] when there is none. *)
Fixpoint split_head (sep s : string) : string :=
  if String.prefix sep s then ""
  else match s with
       | EmptyString => ""
       | String c s' => String c (split_head sep s')
       end.

(** [sub in s] on strings: [sub] occurs in [s] as a contiguous substring. *)
Fixpoint contains (sub s : string) : bool :=
  if String.prefix sub s then true
  else match s with
       | EmptyString => false
       | String _ s' => contains sub s'
       end.

(** The declarative reading of [in]. *)
Definition occurs (sub s : string) : Prop :=
  ∃ pre post, s = pre +:+ sub +:+ post.

End PyStr.

(** ** The library and environment the program runs against *)

(** The functions of the Python standard library that the program calls, and
    the one module constant that is read from the process environment. *)
Class Runtime := {
  (** [html.unescape]. *)
  html_unescape : string → string;
  (** [re.findall(pattern, text, flags=re.IGNORECASE)] for a pattern without
      capturing groups: the matched substrings, in document order. *)
  re_findall : string → string → list string;
  (** [urlparse(s).netloc]; [None] when [urlparse] raises. *)
  urlparse_netloc : string → option string;
  (** [hashlib.sha256(s.encode("utf-8")).hexdigest()]. *)
  sha256_hexdigest : string → string;
  (** [os.environ.get("HOUSE_WATCH_STATE", "seen_listings.json")]. *)
  STATE_FILE : string
}.

(** ** Link extractor *)

Section Extractor.
Context {rt : Runtime}.

(** Lines 92-93: drop the fragment, then the tracking parameters. *)
Definition normalize (link : string) : string :=
  PyStr.split_head "?utm_" (PyStr.split_head "#" link).

(** Lines 90-100: the first loop of [extract_links]. *)
Fixpoint clean_links (links : list string) (domain : string) : list string :=
  match links with
  | [] => []
  | link :: rest =>
      let link := normalize link in
      match urlparse_netloc link with
      | None => clean_links rest domain
      | Some netloc =>
          if PyStr.contains domain netloc
          then link :: clean_links rest domain
          else clean_links rest domain
      end
  end.

(** Lines 102-107: the order-preserving dedupe loop, with its [seen] set. *)
Fixpoint dedupe (clean : list string) (seen : gset string) : list string :=
  match clean with
  | [] => []
  | l :: rest =>
      if decide (l ∈ seen) then dedupe rest seen
      else l :: dedupe rest ({[l]} ∪ seen)
  end.

Definition extract_links (html_text pattern domain : string) : list string :=
  let text := html_unescape html_text in
  let links := re_findall pattern text in
  let clean := clean_links links domain in
  dedupe clean ∅.

Definition sha_of (s : string) : string := sha256_hexdigest s.

End Extractor.

(** ** Values, exceptions, files and the event trace *)

(** The JSON values a state dictionary holds in this development: [null],
    booleans, integers and arrays of strings. *)
Inductive pyval :=
| PNone
| PBool (b : bool)
| PInt (z : Z)
| PList (l : list string).

(** What [json.load] returns: an object (a Python [dict]) or another value. *)
Inductive json_doc :=
| JObject (d : gmap string pyval)
| JValue (v : pyval).

(** Python truthiness, as used by [not x] and [a or b] in a condition. *)
Definition truthy (v : pyval) : bool :=
  match v with
  | PNone => false
  | PBool b => b
  | PInt z => negb (z =? 0)%Z
  | PList l => negb (bool_decide (l = []))
  end.

(** [d.get(key, default)]. *)
Definition dict_get (d : gmap string pyval) (key : string) (dflt : pyval) : pyval :=
  default dflt (d !! key).

Inductive exn :=
| FileNotFoundError (path : string)
| OSError (why : string)
| JSONDecodeError
| TypeError (what : string)
| AttributeError (what : string)
| ValueError (what : string)
| RuntimeError (msg : string)
| KeyboardInterrupt.

(** [except Exception] catches everything but [KeyboardInterrupt], which
    derives from [BaseException] only. *)
Definition is_Exception (e : exn) : bool :=
  match e with KeyboardInterrupt => false | _ => true end.

Inductive outcome (A : Type) :=
| Return (a : A)
| Raise (e : exn).
Arguments Return {A} a.
Arguments Raise {A} e.

(** The bytes of a file, up to what [json.load] makes of them. *)
Inductive content :=
| Json (d : json_doc)
  (** a complete JSON document *)
| Truncated (d : json_doc) (n : nat)
  (** the first [n] characters of the serialisation of [d], cut before its end *)
| Garbage (bytes : string).
  (** anything else that is not a JSON document *)

Inductive node :=
| File (c : content)
| Unreadable (why : string).
  (** a directory, a file without read permission, bytes that are not UTF-8 *)

(** One reply of [requests.get] / [requests.post]. *)
Inductive response :=
| Response (status_code : Z) (text : string)
| Failure (msg : string).

(** The text [f"🔔 Nuovo annuncio su <b>{name}</b>\n{link}"], kept as its two
    holes. *)
Record message := Msg { msg_name : string; msg_link : string }.

Inductive event :=
| Warn_state (e : exn)
  (** [[WARN] Impossibile leggere ...] *)
| Slept (tenths : nat)
  (** [time.sleep], in tenths of a second *)
| Error_source (name : string) (e : exn)
  (** [[ERROR] name: e] *)
| Info_found (name : string) (n : nat)
  (** [[INFO] name: trovati n link candidati.] *)
| Tg_skipped (m : message)
  (** [telegram_notify(m)] found no credentials and sent nothing *)
| Tg_posted (m : message) (reply : response)
  (** [telegram_notify(m)] posted [m] and got [reply] *)
| Dry_run (m : message)
  (** [[DRYRUN] m] *)
| Info_done (total_new : nat)
  (** [[INFO] Run completato ...] *)
| Warn_cycle (e : exn).
  (** [[WARN] Errore nel ciclo: e] *)

(** ** A small monad: file system state, exceptions, event trace *)

Module Prog.

Definition t (A : Type) : Type :=
  gmap string node → outcome A * gmap string node * list event.

Definition ret {A} (a : A) : t A := λ fs, (Return a, fs, []).

Definition bind {A B} (m : t A) (k : A → t B) : t B := λ fs,
  match m fs with
  | (Return a, fs1, ev1) =>
      let '(r, fs2, ev2) := k a fs1 in (r, fs2, ev1 ++ ev2)
  | (Raise e, fs1, ev1) => (Raise e, fs1, ev1)
  end.

Definition raise {A} (e : exn) : t A := λ fs, (Raise e, fs, []).

Definition emit (ev : event) : t unit := λ fs, (Return tt, fs, [ev]).

Definition lift {A} (o : outcome A) : t A := λ fs, (o, fs, []).

(** A pure computation that prints: result and trace, no file access. *)
Definition lift_trace {A} (o : outcome A * list event) : t A :=
  λ fs, (o.1, fs, o.2).

Definition get_fs : t (gmap string node) := λ fs, (Return fs, fs, []).

Definition set_fs (fs' : gmap string node) : t unit := λ _, (Return tt, fs', []).

(** [try: m  except Exception as e: h e]. *)
Definition try_except {A} (m : t A) (h : exn → t A) : t A := λ fs,
  match m fs with
  | (Return a, fs1, ev1) => (Return a, fs1, ev1)
  | (Raise e, fs1, ev1) =>
      if is_Exception e
      then let '(r, fs2, ev2) := h e fs1 in (r, fs2, ev1 ++ ev2)
      else (Raise e, fs1, ev1)
  end.

End Prog.

Global Instance prog_ret : MRet Prog.t := @Prog.ret.
Global Instance prog_bind : MBind Prog.t := λ A B k m, Prog.bind m k.

(** ** Configuration *)

Record source := Source {
  src_name : string;
  src_url : string;
  src_pattern : string
}.

(** The double quote, which the two patterns contain. *)
Definition dquote : string := String (ascii_of_nat 34) EmptyString.

(** Lines 28-41. *)
Definition SOURCES : list source := [
  {| src_name := "Idealista";
     src_url := "https://www.idealista.it/point/affitto-case/44.48011/11.37555/12/con-prezzo_750,pubblicato_ultime-24-ore/lista-mappa";
     src_pattern := "https?://www\.idealista\.it/[^\s\" +:+ dquote +:+ "'>]+/(?:immobile|annuncio)[^\s\"
                      +:+ dquote +:+ "'>]*" |};
  {| src_name := "Immobiliare.it";
     src_url := "https://www.immobiliare.it/search-list/?idContratto=2&idCategoria=1&prezzoMassimo=750&idTipologia[0]=4&__lang=it&mapCenter=44.500995%2C11.345773&zoom=13#geohash-srbj1s0";
     src_pattern := "https?://www\.immobiliare\.it/[^\s\" +:+ dquote +:+ "'>]*/annunci[^\s\"
                      +:+ dquote +:+ "'>]*" |}
].

(** ** Seen-set store *)

(** Where a [save_state] can go wrong, and how. *)
Inductive save_point :=
| At_open
  (** in [open(tmp, "w")]: nothing has been created *)
| At_write (n : nat)
  (** in [json.dump], after [n] characters reached the temporary file *)
| At_replace.
  (** the temporary file is complete and closed, [os.replace] has not run *)

Inductive failure :=
| Os_error (why : string)
  (** the operation raises [OSError] *)
| Stopped.
  (** the process is interrupted there *)

Inductive fault :=
| No_fault
| Fault (p : save_point) (f : failure).

Definition failure_exn (f : failure) : exn :=
  match f with
  | Os_error why => OSError why
  | Stopped => KeyboardInterrupt
  end.

Section Store.
Context {rt : Runtime}.

(** [{"seen": []}]. *)
Definition fresh_state : json_doc := JObject {[ "seen" := PList [] ]}.

(** [open(path, "r", encoding="utf-8")] followed by reading the file. *)
Definition open_read (path : string) : Prog.t content :=
  fs ← Prog.get_fs;
  match fs !! path with
  | None => Prog.raise (FileNotFoundError path)
  | Some (Unreadable why) => Prog.raise (OSError why)
  | Some (File c) => mret c
  end.

(** [json.load]. *)
Definition json_load (c : content) : Prog.t json_doc :=
  match c with
  | Json d => mret d
  | Truncated _ _ | Garbage _ => Prog.raise JSONDecodeError
  end.

(** Lines 46-54.  The two handlers are one [try_except] that tells
    [FileNotFoundError] from the rest. *)
Definition load_state : Prog.t json_doc :=
  Prog.try_except
    (c ← open_read STATE_FILE; json_load c)
    (λ e, match e with
          | FileNotFoundError _ => mret fresh_state
          | _ => Prog.emit (Warn_state e);; mret fresh_state
          end).

(** [open(tmp, "w", encoding="utf-8")]: create or truncate. *)
Definition open_write (flt : fault) (path : string) : Prog.t unit :=
  match flt with
  | Fault At_open f => Prog.raise (failure_exn f)
  | _ => fs ← Prog.get_fs; Prog.set_fs (<[path := File (Garbage "")]> fs)
  end.

(** [json.dump(state, f, ...)] and the close at the end of the [with]. *)
Definition json_dump (flt : fault) (state : json_doc) (path : string) : Prog.t unit :=
  fs ← Prog.get_fs;
  match flt with
  | Fault (At_write n) f =>
      Prog.set_fs (<[path := File (Truncated state n)]> fs);;
      Prog.raise (failure_exn f)
  | _ => Prog.set_fs (<[path := File (Json state)]> fs)
  end.

(** [os.replace(src, dst)]: one atomic rename. *)
Definition os_replace (flt : fault) (src dst : string) : Prog.t unit :=
  match flt with
  | Fault At_replace f => Prog.raise (failure_exn f)
  | _ =>
      fs ← Prog.get_fs;
      match fs !! src with
      | None => Prog.raise (FileNotFoundError src)
      | Some nd => Prog.set_fs (<[dst := nd]> (delete src fs))
      end
  end.

(** Lines 56-60. *)
Definition save_state (flt : fault) (state : json_doc) : Prog.t unit :=
  let tmp := STATE_FILE +:+ ".tmp" in
  open_write flt tmp;;
  json_dump flt state tmp;;
  os_replace flt tmp STATE_FILE.

End Store.

(** ** Fetcher *)

(** The last error [fetch] remembers. *)
Definition show_last_err (r : response) : string :=
  match r with
  | Response code _ => "HTTP " +:+ pretty code
  | Failure msg => msg
  end.

(** Lines 73-83: the attempts [i] still to make, and the last error seen.
    [get i] is the reply to the [i]-th request for this URL. *)
Fixpoint fetch_loop (get : nat → response) (url : string) (attempts : list nat)
    (last_err : string) : outcome string * list event :=
  match attempts with
  | [] => (Raise (RuntimeError ("Errore nel fetch di " +:+ url +:+ ": " +:+ last_err)), [])
  | i :: rest =>
      let resp := get i in
      let retry :=
        let '(o, evs) := fetch_loop get url rest (show_last_err resp) in
        (o, Slept (15 * (i + 1)) :: evs) in
      match resp with
      | Response status_code text =>
          if (status_code =? 200)%Z then (Return text, []) else retry
      | Failure _ => retry
      end
  end.

Definition fetch (get : nat → response) (url : string) (retries : nat)
    : outcome string * list event :=
  fetch_loop get url (seq 0 (retries + 1)) "None".

(** ** Notifier *)

(** The Telegram side: the two environment variables and the reply to a
    [sendMessage] request. *)
Record telegram := Telegram {
  tg_token : option string;
  tg_chat_id : option string;
  tg_post : message → response
}.

(** [not os.environ.get(name)]. *)
Definition unset (v : option string) : bool :=
  match v with
  | None => true
  | Some s => bool_decide (s = "")
  end.

(** Lines 110-131.  Each call leaves exactly one event. *)
Definition telegram_notify (tg : telegram) (text : message) : bool * list event :=
  if unset (tg_token tg) || unset (tg_chat_id tg)
  then (false, [Tg_skipped text])
  else
    let r := tg_post tg text in
    match r with
    | Response status_code _ =>
        if negb (status_code =? 200)%Z
        then (false, [Tg_posted text r])
        else (true, [Tg_posted text r])
    | Failure _ => (false, [Tg_posted text r])
    end.

(** ** Cycle orchestrator *)

(** What the outside world does during one cycle. *)
Record cycle_env := Cycle_env {
  net : string → nat → response;
  (** the reply to the [i]-th GET of a URL *)
  tg : telegram;
  save_fault : fault
}.

Section Cycle.
Context {rt : Runtime}.

(** [set(v)] for a value taken from the state dictionary. *)
Definition py_set (v : pyval) : outcome (gset string) :=
  match v with
  | PList l => Return (list_to_set l)
  | PNone => Raise (TypeError "'NoneType' object is not iterable")
  | PBool _ => Raise (TypeError "'bool' object is not iterable")
  | PInt _ => Raise (TypeError "'int' object is not iterable")
  end.

(** [state.get] needs [state] to be a dict. *)
Definition as_dict (state : json_doc) : outcome (gmap string pyval) :=
  match state with
  | JObject d => Return d
  | JValue _ => Raise (AttributeError "get")
  end.

(** Lines 155-164: the loop over the links of one source.  [seen] is the
    set built at line 135; the loop reads it and never changes it. *)
Fixpoint notify_links (env : cycle_env) (notify_first_run : bool)
    (state : gmap string pyval) (seen : gset string) (name : string)
    (links : list string) (total_new : nat) (newly_seen : list string)
    : nat * list string * list event :=
  match links with
  | [] => (total_new, newly_seen, [])
  | link :: rest =>
      let key := sha_of link in
      if decide (key ∈ seen)
      then notify_links env notify_first_run state seen name rest total_new newly_seen
      else
        let total_new := total_new + 1 in
        let newly_seen := newly_seen ++ [key] in
        let msg := Msg name link in
        let evs :=
          if notify_first_run || truthy (dict_get state "initialized" (PBool false))
          then (telegram_notify (tg env) msg).2
          else [Dry_run msg] in
        let '(t, n, evs') :=
          notify_links env notify_first_run state seen name rest total_new newly_seen in
        (t, n, evs ++ evs')
  end.

(** Lines 140-164: the loop over the sources. *)
Fixpoint scan_sources (env : cycle_env) (notify_first_run : bool)
    (state : gmap string pyval) (seen : gset string) (sources : list source)
    (total_new : nat) (newly_seen : list string) : Prog.t (nat * list string) :=
  match sources with
  | [] => mret (total_new, newly_seen)
  | src :: rest =>
      let name := src_name src in
      let url := src_url src in
      let pattern := src_pattern src in
      domain ← Prog.lift (match urlparse_netloc url with
                          | Some d => Return d
                          | None => Raise (ValueError url)
                          end);
      fetched ← Prog.try_except
                  (html_text ← Prog.lift_trace (fetch (net env url) url 2);
                   mret (Some html_text))
                  (λ e, Prog.emit (Error_source name e);; mret None);
      match fetched with
      | None => scan_sources env notify_first_run state seen rest total_new newly_seen
      | Some html_text =>
          let links := extract_links html_text pattern domain in
          Prog.emit (Info_found name (length links));;
          let '(total_new, newly_seen, evs) :=
            notify_links env notify_first_run state seen name links total_new newly_seen in
          Prog.lift_trace (Return tt, evs);;
          scan_sources env notify_first_run state seen rest total_new newly_seen
      end
  end.

(** Lines 133-172, with the configured list as an argument. *)
Definition run_cycle (sources : list source) (env : cycle_env)
    (notify_first_run : bool) : Prog.t nat :=
  loaded ← load_state;
  state ← Prog.lift (as_dict loaded);
  seen ← Prog.lift (py_set (dict_get state "seen" (PList [])));
  '(total_new, newly_seen) ←
    scan_sources env notify_first_run state seen sources 0 [];
  let state' :=
    if negb (truthy (dict_get state "initialized" (PBool false)))
    then <["initialized" := PBool true]> state
    else state in
  let state' :=
    <["seen" := PList (elements (seen ∪ list_to_set newly_seen))]> state' in
  save_state (save_fault env) (JObject state');;
  Prog.emit (Info_done total_new);;
  mret total_new.

Definition run_once (env : cycle_env) (notify_first_run : bool) : Prog.t nat :=
  run_cycle SOURCES env notify_first_run.


End Cycle.

(** ** Reading a trace and a file system *)

(** The calls to the Notifier, in order. *)
Definition notifier_calls (evs : list event) : list message :=
  omap (λ ev, match ev with
              | Tg_skipped m | Tg_posted m _ => Some m
              | _ => None
              end) evs.

(** The messages that were only logged. *)
Definition dry_runs (evs : list event) : list message :=
  omap (λ ev, match ev with Dry_run m => Some m | _ => None end) evs.

(** Notification attempts: sent to the Notifier, or dry-run logged. *)
Definition attempts (evs : list event) : list message :=
  omap (λ ev, match ev with
              | Tg_skipped m | Tg_posted m _ | Dry_run m => Some m
              | _ => None
              end) evs.

(** The sources reported as failing. *)
Definition source_errors (evs : list event) : list string :=
  omap (λ ev, match ev with Error_source name _ => Some name | _ => None end) evs.

Section Readings.
Context {rt : Runtime}.

Definition fingerprint (m : message) : string := sha_of (msg_link m).

(** The dictionary and the seen set a cycle started on [fs] works with. *)
Definition cycle_start (fs : gmap string node)
    : outcome (gmap string pyval * gset string) :=
  match (load_state fs).1.1 with
  | Raise e => Raise e
  | Return loaded =>
      match as_dict loaded with
      | Raise e => Raise e
      | Return state =>
          match py_set (dict_get state "seen" (PList [])) with
          | Raise e => Raise e
          | Return seen => Return (state, seen)
          end
      end
  end.

(** The fingerprints in the canonical state file, when it holds an object
    with a list under ["seen"]; none otherwise. *)
Definition persisted_seen (fs : gmap string node) : gset string :=
  match fs !! STATE_FILE with
  | Some (File (Json (JObject d))) =>
      match dict_get d "seen" (PList []) with
      | PList l => list_to_set l
      | _ => ∅
      end
  | _ => ∅
  end.

(** The page of a source, when its fetch succeeds within the retries. *)
Definition fetched (env : cycle_env) (src : source) : option string :=
  match (fetch (net env (src_url src)) (src_url src) 2).1 with
  | Return html_text => Some html_text
  | Raise _ => None
  end.

(** The candidate links of a source in this cycle. *)
Definition candidates (env : cycle_env) (src : source) : list string :=
  match urlparse_netloc (src_url src), fetched env src with
  | Some domain, Some html_text => extract_links html_text (src_pattern src) domain
  | _, _ => []
  end.

(** The previously-unseen links of a source, as the messages about them. *)
Definition fresh_of (env : cycle_env) (seen : gset string) (src : source)
    : list message :=
  Msg (src_name src) <$> filter (λ l, sha_of l ∉ seen) (candidates env src).

Definition fresh_links (env : cycle_env) (seen : gset string)
    (sources : list source) : list message :=
  flat_map (fresh_of env seen) sources.

(** The condition of line 161. *)
Definition notifying (notify_first_run : bool) (state : gmap string pyval) : bool :=
  notify_first_run || truthy (dict_get state "initialized" (PBool false)).

Definition urls_parse (sources : list source) : Prop :=
  Forall (λ src, is_Some (urlparse_netloc (src_url src))) sources.

End Readings.

(** The spec's reading of [split('x')[0]]: [r] is [s] cut at the first
    occurrence of [sep], or all of [s] when [sep] does not occur. *)
Definition cut_at_first (sep s r : string) : Prop :=
  (¬ PyStr.occurs sep s ∧ r = s) ∨
  (∃ post, s = r +:+ sep +:+ post ∧
     ∀ pre' post', s = pre' +:+ sep +:+ post' → String.length r ≤ String.length pre').

(** ** A small runtime to run the definitions on *)

Module Demo.

(** The words of a text, split at blanks. *)
Fixpoint words_go (s acc : string) : list string :=
  match s with
  | EmptyString => if bool_decide (acc = "") then [] else [acc]
  | String c s' =>
      if bool_decide (c = " "%char)
      then (if bool_decide (acc = "") then [] else [acc]) ++ words_go s' ""
      else words_go s' (acc +:+ String c EmptyString)
  end.

(** Every word of the text that starts like the pattern up to its first
    meta-character; enough for patterns such as [https://host/[^ ]*]. *)
Definition findall (pattern text : string) : list string :=
  filter (λ w, String.prefix (PyStr.split_head "[" pattern) w = true)
         (words_go text "").

Fixpoint after (sep s : string) : option string :=
  if String.prefix sep s
  then Some (String.substring (String.length sep) (String.length s) s)
  else match s with
       | EmptyString => None
       | String _ s' => after sep s'
       end.

(** The text between [//] and the next [/]. *)
Definition netloc (url : string) : option string :=
  PyStr.split_head "/" <$> after "//" url.

Definition runtime : Runtime := {|
  html_unescape := id;
  re_findall := findall;
  urlparse_netloc := netloc;
  sha256_hexdigest := λ s, "sha256:" +:+ s;
  STATE_FILE := "seen_listings.json"
|}.

Definition no_telegram : telegram :=
  {| tg_token := None; tg_chat_id := None; tg_post := λ _, Failure "offline" |}.

Definition telegram_ok : telegram :=
  {| tg_token := Some "t"; tg_chat_id := Some "c"; tg_post := λ _, Response 200 "ok" |}.

(** Two searches on the same portal. *)
Definition rent : source :=
  {| src_name := "rent"; src_url := "https://example.com/rent";
     src_pattern := "https://example.com/listing/[^ ]*" |}.
Definition sale : source :=
  {| src_name := "sale"; src_url := "https://example.com/sale";
     src_pattern := "https://example.com/listing/[^ ]*" |}.

Definition page : string :=
  "see https://example.com/listing/1#top and https://example.com/listing/2?utm_source=x now".

(** Both searches answer with [page]. *)
Definition env_both (t : telegram) (flt : fault) : cycle_env :=
  {| net := λ _ _, Response 200 page; tg := t; save_fault := flt |}.

(** The rent search is down, the sale search answers. *)
Definition env_rent_down (t : telegram) (flt : fault) : cycle_env :=
  {| net := λ url _, if bool_decide (url = src_url rent)
                     then Response 503 "" else Response 200 page;
     tg := t; save_fault := flt |}.

Definition both : list source := [rent; sale].

(** A first cycle on an empty directory, notifying from the first run on. *)
Definition first_run : outcome nat * gmap string node * list event :=
  run_cycle (rt := runtime) both (env_both telegram_ok No_fault) true ∅.

Definition listing1 : string := "https://example.com/listing/1".
Definition listing2 : string := "https://example.com/listing/2".

(** A server that answers at the third request. *)
Definition flaky (k : nat) : response :=
  if k <? 2 then Response 503 "busy" else Response 200 "page".

(** A server that never answers with a page. *)
Definition down (k : nat) : response :=
  if k <? 2 then Failure "timeout" else Response 500 "".

(** [flaky] for the three requests [fetch] makes, silence afterwards. *)
Definition flaky_then_silent (k : nat) : response :=
  if k <? 3 then flaky k else Failure "never asked".

(** A state file with a key of its own beside ["seen"]. *)
Definition noted : gmap string node :=
  {[ "seen_listings.json" :=
       File (Json (JObject {[ "note" := PInt 7; "seen" := PList ["old"] ]})) ]}.

Definition noted_run : outcome nat * gmap string node * list event :=
  run_cycle (rt := runtime) both (env_both telegram_ok No_fault) false noted.

Definition disk_full : fault := Fault At_replace (Os_error "disk full").

End Demo.


(** ** Vocabulary for the further properties *)

(** A reply that [fetch] and [telegram_notify] accept: status 200. *)
Definition status_ok (r : response) : bool :=
  match r with
  | Response status_code _ => (status_code =? 200)%Z
  | Failure _ => false
  end.

(** The pauses of [fetch] after its failed attempts [0 .. n-1]. *)
Definition backoff (n : nat) : list event :=
  (λ i, Slept (15 * (i + 1))) <$> seq 0 n.

(** The test of lines 95-100 on a normalized link: its URL parses and the
    domain occurs in its host. *)
Definition kept {rt : Runtime} (domain link : string) : bool :=
  match urlparse_netloc link with
  | None => false
  | Some netloc => PyStr.contains domain netloc
  end.

(** ** The configured sources on the small runtime *)


Module Shipped.

(** A pattern without its escapes and its optional marks. *)
Fixpoint strip (s : string) : string :=
  match s with
  | EmptyString => EmptyString
  | String c s' =>
      if bool_decide (c = "\"%char) || bool_decide (c = "?"%char)
      then strip s'
      else String c (strip s')
  end.

(** The text every match of the pattern starts with, when the link is
    written in lower case with the [https] scheme. *)
Definition literal (pattern : string) : string :=
  strip (PyStr.split_head "[" pattern).

(** The words of the text that start with the pattern's literal part. *)
Definition findall (pattern text : string) : list string :=
  filter (λ w, String.prefix (literal pattern) w = true) (Demo.words_go text "").

Definition runtime : Runtime := {|
  html_unescape := id;
  re_findall := findall;
  urlparse_netloc := Demo.netloc;
  sha256_hexdigest := λ s, "sha256:" +:+ s;
  STATE_FILE := "seen_listings.json"
|}.

Definition house : string := "https://www.idealista.it/affitto/immobile/456".
Definition flat : string := "https://www.immobiliare.it/affitto/annunci/123".

(** Both portals answer with a text that names one listing of each. *)
Definition page : string := "new " +:+ house +:+ " and " +:+ flat +:+ " today".

Definition env (flt : fault) : cycle_env :=
  {| net := λ _ _, Response 200 page; tg := Demo.telegram_ok; save_fault := flt |}.




End Shipped.
(** * Properties *)

(** ** Strings *)

Module PyStrFacts.
Import PyStr.

Lemma append_cons (c : ascii) (a b : string) :
  String c a +:+ b = String c (a +:+ b).
Proof. reflexivity. Qed.

Lemma append_empty (b : string) : "" +:+ b = b.
Proof. reflexivity. Qed.

Lemma prefix_iff (a s : string) :
  String.prefix a s = true ↔ ∃ post, s = a +:+ post.
Proof.
  revert s; induction a as [|c a IH]; intros s; simpl.
  - destruct s; split; eauto.
  - destruct s as [|c' s]; simpl.
    + split; [discriminate | intros [post H]; discriminate].
    + destruct (Ascii.ascii_dec c c') as [->|Hne].
      * rewrite IH. split; intros [post H]; exists post;
          rewrite ?append_cons in *; congruence.
      * split; [discriminate | intros [post H]; rewrite append_cons in H; congruence].
Qed.

Lemma contains_unfold (sub s : string) :
  contains sub s =
    if String.prefix sub s then true
    else match s with EmptyString => false | String _ s' => contains sub s' end.
Proof. by destruct s. Qed.

Lemma split_head_unfold (sep s : string) :
  split_head sep s =
    if String.prefix sep s then ""
    else match s with
         | EmptyString => ""
         | String c s' => String c (split_head sep s')
         end.
Proof. by destruct s. Qed.

Lemma contains_occurs (sub s : string) :
  contains sub s = true ↔ occurs sub s.
Proof.
  induction s as [|c s IH]; rewrite contains_unfold.
  - destruct (String.prefix sub "") eqn:Hp.
    + split; [intros _ | done].
      apply prefix_iff in Hp as [post Hp]. by exists "", post.
    + split; [discriminate |].
      intros (pre & post & H). destruct pre; [|discriminate].
      rewrite append_empty in H.
      assert (String.prefix sub "" = true) by (apply prefix_iff; eauto).
      congruence.
  - destruct (String.prefix sub (String c s)) eqn:Hp.
    + split; [intros _ | done].
      apply prefix_iff in Hp as [post Hp]. by exists "", post.
    + rewrite IH. split.
      * intros (pre & post & ->). by exists (String c pre), post.
      * intros (pre & post & H).
        destruct pre as [|c' pre]; rewrite ?append_cons, ?append_empty in H.
        -- assert (String.prefix sub (String c s) = true)
             by (apply prefix_iff; eauto). congruence.
        -- injection H as -> ->. by exists pre, post.
Qed.

Lemma split_head_absent (sep s : string) :
  contains sep s = false → split_head sep s = s.
Proof.
  induction s as [|c s IH]; rewrite contains_unfold, split_head_unfold.
  - by destruct (String.prefix sep "").
  - destruct (String.prefix sep (String c s)); [discriminate |].
    intros H. by rewrite IH.
Qed.

Lemma split_head_present (sep s : string) :
  contains sep s = true → ∃ post, s = split_head sep s +:+ sep +:+ post.
Proof.
  induction s as [|c s IH]; rewrite contains_unfold, split_head_unfold.
  - destruct (String.prefix sep "") eqn:Hp; [|discriminate].
    intros _. by apply prefix_iff in Hp.
  - destruct (String.prefix sep (String c s)) eqn:Hp.
    + intros _. by apply prefix_iff in Hp.
    + intros [post Hs]%IH. exists post. rewrite append_cons. by rewrite <-Hs.
Qed.

Lemma split_head_first (sep s pre post : string) :
  s = pre +:+ sep +:+ post →
  String.length (split_head sep s) ≤ String.length pre.
Proof.
  revert pre; induction s as [|c s IH]; intros pre Hs; rewrite split_head_unfold.
  - destruct (String.prefix sep ""); simpl; lia.
  - destruct (String.prefix sep (String c s)) eqn:Hp; simpl; [lia |].
    destruct pre as [|c' pre]; rewrite ?append_cons, ?append_empty in Hs.
    + assert (String.prefix sep (String c s) = true)
        by (apply prefix_iff; eauto). congruence.
    + injection Hs as -> ->. simpl. specialize (IH pre eq_refl). lia.
Qed.

(** [split_head] is the cut at the first occurrence. *)
Lemma split_head_cut (sep s : string) : cut_at_first sep s (split_head sep s).
Proof.
  destruct (contains sep s) eqn:Hc.
  - right. destruct (split_head_present _ _ Hc) as [post Hs].
    exists post. split; [done |]. intros pre' post'. apply split_head_first.
  - left. split; [|by apply split_head_absent].
    rewrite <-contains_occurs. congruence.
Qed.

Lemma length_append (a b : string) :
  String.length (a +:+ b) = String.length a + String.length b.
Proof. induction a as [|c a IH]; [done |]. rewrite append_cons. simpl. by rewrite IH. Qed.

(** A path and the same path with a suffix added are different files. *)
Lemma append_neq (s suffix : string) : suffix ≠ "" → s +:+ suffix ≠ s.
Proof.
  intros Hne Heq. apply (f_equal String.length) in Heq.
  rewrite length_append in Heq.
  destruct suffix; [done | simpl in Heq; lia].
Qed.

End PyStrFacts.

(** ** Link extractor *)

Section ExtractorFacts.
Context {rt : Runtime}.

Lemma elem_of_clean_links (links : list string) (domain link : string) :
  link ∈ clean_links links domain ↔
  ∃ m, m ∈ links ∧ link = normalize m ∧
    ∃ netloc, urlparse_netloc link = Some netloc ∧
              PyStr.contains domain netloc = true.
Proof.
  induction links as [|m0 links IH]; simpl.
  - split; [by intros ?%elem_of_nil | by intros (m & ?%elem_of_nil & _)].
  - destruct (urlparse_netloc (normalize m0)) as [netloc|] eqn:Hn.
    + destruct (PyStr.contains domain netloc) eqn:Hc.
      * rewrite elem_of_cons, IH. split.
        -- intros [-> | (m & Hm & Hl & Hk)].
           ++ exists m0. split; [left|]; eauto.
           ++ exists m. split; [by right | done].
        -- intros (m & [-> | Hm]%elem_of_cons & -> & Hk); [by left |].
           right. by exists m.
      * rewrite IH. split.
        -- intros (m & Hm & Hl & Hk). exists m. split; [by right | done].
        -- intros (m & [-> | Hm]%elem_of_cons & -> & netloc' & Hk & Hc').
           ++ congruence.
           ++ exists m. eauto.
    + rewrite IH. split.
      * intros (m & Hm & Hl & Hk). exists m. split; [by right | done].
      * intros (m & [-> | Hm]%elem_of_cons & -> & netloc' & Hk & Hc').
        -- congruence.
        -- exists m. eauto.
Qed.

Lemma elem_of_dedupe (clean : list string) (seen : gset string) (l : string) :
  l ∈ dedupe clean seen ↔ l ∈ clean ∧ l ∉ seen.
Proof.
  revert seen; induction clean as [|x clean IH]; intros seen; simpl.
  - set_solver.
  - destruct (decide (x ∈ seen)).
    + rewrite IH. set_solver.
    + rewrite elem_of_cons, IH. destruct (decide (l = x)); set_solver.
Qed.

Lemma NoDup_dedupe (clean : list string) (seen : gset string) :
  NoDup (dedupe clean seen).
Proof.
  revert seen; induction clean as [|x clean IH]; intros seen; simpl.
  - constructor.
  - destruct (decide (x ∈ seen)); [done |].
    constructor; [|done]. rewrite elem_of_dedupe. set_solver.
Qed.

Lemma NoDup_extract_links (html_text pattern domain : string) :
  NoDup (extract_links html_text pattern domain).
Proof. apply NoDup_dedupe. Qed.

Lemma elem_of_extract_links (html_text pattern domain link : string) :
  link ∈ extract_links html_text pattern domain ↔
  ∃ m, m ∈ re_findall pattern (html_unescape html_text) ∧ link = normalize m ∧
    ∃ netloc, urlparse_netloc link = Some netloc ∧
              PyStr.contains domain netloc = true.
Proof.
  unfold extract_links. rewrite elem_of_dedupe, elem_of_clean_links. set_solver.
Qed.

(** C7.  A normalized match is in the extractor's result exactly when
    parsing it as a URL succeeds and the configured domain occurs in its
    host as a substring; a match whose URL does not parse is left out,
    and the extractor still returns its list.  With the domain
    [example.com] the hosts [evil.example.com] and [notexample.com] are
    kept, [example.org] is not. *)
Theorem extract_links_domain_filter :
  (∀ html_text pattern domain link,
     link ∈ extract_links html_text pattern domain ↔
     ∃ m, m ∈ re_findall pattern (html_unescape html_text) ∧
          link = normalize m ∧
          ∃ netloc, urlparse_netloc link = Some netloc ∧
                    PyStr.occurs domain netloc) ∧
  (∀ html_text pattern domain m,
     m ∈ re_findall pattern (html_unescape html_text) →
     urlparse_netloc (normalize m) = None →
     normalize m ∉ extract_links html_text pattern domain) ∧
  PyStr.contains "example.com" "evil.example.com" = true ∧
  PyStr.contains "example.com" "notexample.com" = true ∧
  PyStr.contains "example.com" "example.org" = false.
Proof.
  split; [|split; [|by vm_compute]].
  - intros html_text pattern domain link. rewrite elem_of_extract_links.
    by setoid_rewrite PyStrFacts.contains_occurs.
  - intros html_text pattern domain m _ Hnone.
    rewrite elem_of_extract_links. intros (_ & _ & _ & netloc & Hk & _).
    congruence.
Qed.

(** C8.  Every link the extractor returns is a match cut at its first [#]
    and the result cut at its first [?utm_]; the tracked, anchored form of
    a listing URL and its plain form normalize to the same string and so
    have the same fingerprint. *)
Theorem normalize_fragment_then_tracking :
  (∀ link, ∃ a, cut_at_first "#" link a ∧
                cut_at_first "?utm_" a (normalize link)) ∧
  (∀ html_text pattern domain link,
     link ∈ extract_links html_text pattern domain →
     ∃ m, m ∈ re_findall pattern (html_unescape html_text) ∧
          link = normalize m) ∧
  normalize "https://example.com/listing/123?utm_source=x#top"
    = "https://example.com/listing/123" ∧
  normalize "https://example.com/listing/123"
    = "https://example.com/listing/123" ∧
  sha_of (normalize "https://example.com/listing/123?utm_source=x#top")
    = sha_of (normalize "https://example.com/listing/123").
Proof.
  split; [|split; [|split; [|split]]].
  - intros link. exists (PyStr.split_head "#" link).
    split; apply PyStrFacts.split_head_cut.
  - intros html_text pattern domain link (m & Hm & Hl & _)%elem_of_extract_links.
    eauto.
  - by vm_compute.
  - by vm_compute.
  - assert (normalize "https://example.com/listing/123?utm_source=x#top"
            = normalize "https://example.com/listing/123") as -> by (by vm_compute).
    reflexivity.
Qed.

End ExtractorFacts.

(** ** Seen-set store *)

Section StoreFacts.
Context {rt : Runtime}.

Lemma tmp_neq : STATE_FILE +:+ ".tmp" ≠ STATE_FILE.
Proof. by apply PyStrFacts.append_neq. Qed.

Lemma load_state_cases (fs : gmap string node) :
  ∃ doc evs,
    load_state fs = (Return doc, fs, evs) ∧
    match fs !! STATE_FILE with
    | None => doc = fresh_state ∧ evs = []
    | Some (Unreadable why) =>
        doc = fresh_state ∧ evs = [Warn_state (OSError why)]
    | Some (File (Json d)) => doc = d ∧ evs = []
    | Some (File _) =>
        doc = fresh_state ∧ evs = [Warn_state JSONDecodeError]
    end.
Proof.
  unfold load_state, Prog.try_except, open_read, mbind, prog_bind, Prog.bind,
    Prog.get_fs. simpl.
  destruct (fs !! STATE_FILE) as [[[d|d n|bytes]|why]|]; simpl; eauto.
Qed.

Lemma save_state_cases (fs : gmap string node) (state : json_doc) (flt : fault) :
  let tmp := STATE_FILE +:+ ".tmp" in
  let '(r, fs', evs) := save_state flt state fs in
  evs = [] ∧
  match flt with
  | No_fault =>
      r = Return tt ∧ fs' !! STATE_FILE = Some (File (Json state)) ∧
      fs' !! tmp = None
  | Fault p f =>
      r = Raise (failure_exn f) ∧ fs' !! STATE_FILE = fs !! STATE_FILE ∧
      match p with
      | At_open => fs' = fs
      | At_write n => fs' !! tmp = Some (File (Truncated state n))
      | At_replace => fs' !! tmp = Some (File (Json state))
      end
  end.
Proof.
  pose proof tmp_neq as Hne.
  unfold save_state, open_write, json_dump, os_replace,
    mbind, prog_bind, Prog.bind, Prog.get_fs, Prog.set_fs, Prog.raise.
  destruct flt as [|[|n|] f]; simpl.
  - rewrite lookup_insert_eq. simpl.
    rewrite lookup_insert_eq, lookup_insert_ne by done.
    rewrite lookup_delete_eq. auto.
  - auto.
  - rewrite lookup_insert_ne by done. rewrite lookup_insert_ne by done.
    rewrite lookup_insert_eq. auto.
  - rewrite lookup_insert_ne by done. rewrite lookup_insert_ne by done.
    rewrite lookup_insert_eq. auto.
Qed.

End StoreFacts.

(** ** The monad *)

Section ProgFacts.
Context {A B : Type}.

Lemma bind_return (m : Prog.t A) (k : A → Prog.t B) fs a fs1 ev1 :
  m fs = (Return a, fs1, ev1) →
  (m ≫= k) fs = ((k a fs1).1.1, (k a fs1).1.2, ev1 ++ (k a fs1).2).
Proof.
  intros Hm. unfold mbind, prog_bind, Prog.bind. rewrite Hm.
  by destruct (k a fs1) as [[r fs2] ev2].
Qed.

Lemma bind_raise (m : Prog.t A) (k : A → Prog.t B) fs e fs1 ev1 :
  m fs = (Raise e, fs1, ev1) → (m ≫= k) fs = (Raise e, fs1, ev1).
Proof. intros Hm. unfold mbind, prog_bind, Prog.bind. by rewrite Hm. Qed.

Lemma bind_inv (m : Prog.t A) (k : A → Prog.t B) fs r fs2 evs :
  (m ≫= k) fs = (r, fs2, evs) →
  (∃ e, m fs = (Raise e, fs2, evs) ∧ r = Raise e) ∨
  (∃ a fs1 ev1 ev2, m fs = (Return a, fs1, ev1) ∧
                    k a fs1 = (r, fs2, ev2) ∧ evs = ev1 ++ ev2).
Proof.
  unfold mbind, prog_bind, Prog.bind.
  destruct (m fs) as [[[a|e] fs1] ev1].
  - destruct (k a fs1) as [[r' fs2'] ev2] eqn:Hk. intros [= <- <- <-].
    right. by exists a, fs1, ev1, ev2.
  - intros [= <- <- <-]. left. by exists e.
Qed.

End ProgFacts.

(** ** Reading traces *)

Lemma attempts_app (a b : list event) : attempts (a ++ b) = attempts a ++ attempts b.
Proof. apply omap_app. Qed.

Lemma notifier_calls_app (a b : list event) :
  notifier_calls (a ++ b) = notifier_calls a ++ notifier_calls b.
Proof. apply omap_app. Qed.

Lemma dry_runs_app (a b : list event) : dry_runs (a ++ b) = dry_runs a ++ dry_runs b.
Proof. apply omap_app. Qed.

Lemma source_errors_app (a b : list event) :
  source_errors (a ++ b) = source_errors a ++ source_errors b.
Proof. apply omap_app. Qed.


(** ** Cycle orchestrator *)

Section CycleFacts.
Context {rt : Runtime}.

Lemma telegram_notify_trace (t : telegram) (m : message) :
  attempts (telegram_notify t m).2 = [m] ∧
  notifier_calls (telegram_notify t m).2 = [m] ∧
  dry_runs (telegram_notify t m).2 = [] ∧
  source_errors (telegram_notify t m).2 = [].
Proof.
  unfold telegram_notify.
  destruct (unset (tg_token t) || unset (tg_chat_id t)); [done |].
  destruct (tg_post t m) as [code body|msg]; [|done].
  by destruct (code =? 200)%Z.
Qed.

(** The inner loop: one attempt for each link whose fingerprint is not in
    [seen], in order. *)
Lemma notify_links_spec env flag state seen name links total_new newly_seen :
  let fresh := Msg name <$> filter (λ l, sha_of l ∉ seen) links in
  ∃ evs,
    notify_links env flag state seen name links total_new newly_seen
      = (total_new + length fresh, newly_seen ++ (fingerprint <$> fresh), evs) ∧
    attempts evs = fresh ∧
    notifier_calls evs = (if notifying flag state then fresh else []) ∧
    dry_runs evs = (if notifying flag state then [] else fresh) ∧
    source_errors evs = [].
Proof.
  revert total_new newly_seen.
  induction links as [|link links IH]; intros total_new newly_seen; simpl.
  - exists []. rewrite Nat.add_0_r, app_nil_r. by destruct (notifying flag state).
  - destruct (decide (sha_of link ∈ seen)) as [Hin|Hnin].
    + rewrite filter_cons_False by auto. apply IH.
    + rewrite filter_cons_True by done.
      destruct (IH (total_new + 1) (newly_seen ++ [sha_of link]))
        as (evs & -> & Ha & Hc & Hd & He).
      eexists. split.
      { rewrite !fmap_cons. simpl length. rewrite <-app_assoc, <-Nat.add_assoc.
        reflexivity. }
      rewrite attempts_app, notifier_calls_app, dry_runs_app, source_errors_app.
      rewrite Ha, Hc, Hd, He. fold (notifying flag state).
      destruct (telegram_notify_trace (tg env) (Msg name link))
        as (Ta & Tc & Td & Te).
      destruct (notifying flag state); simpl.
      * by rewrite Ta, Tc, Td, Te.
      * done.
Qed.


Lemma fetch_loop_raises get url attempts last_err e :
  (fetch_loop get url attempts last_err).1 = Raise e → is_Exception e = true.
Proof.
  revert last_err; induction attempts as [|i attempts IH]; intros last_err; simpl.
  - by intros [= <-].
  - specialize (IH (show_last_err (get i))).
    destruct (fetch_loop get url attempts (show_last_err (get i))) as [o evs].
    destruct (get i) as [code body|msg]; [|done].
    by destruct (code =? 200)%Z.
Qed.

Lemma fetch_loop_silent get url attempts_left last_err :
  let evs := (fetch_loop get url attempts_left last_err).2 in
  attempts evs = [] ∧ notifier_calls evs = [] ∧ dry_runs evs = [] ∧
  source_errors evs = [].
Proof.
  revert last_err; induction attempts_left as [|i rest IH]; intros last_err; simpl.
  - done.
  - specialize (IH (show_last_err (get i))).
    destruct (fetch_loop get url rest (show_last_err (get i))) as [o evs].
    destruct (get i) as [code body|msg]; [|done].
    by destruct (code =? 200)%Z.
Qed.

Lemma fetch_silent get url retries o evf :
  fetch get url retries = (o, evf) →
  attempts evf = [] ∧ notifier_calls evf = [] ∧ dry_runs evf = [] ∧
  source_errors evf = [].
Proof.
  intros Hf. pose proof (fetch_loop_silent get url (seq 0 (retries + 1)) "None") as H.
  unfold fetch in Hf. by rewrite Hf in H.
Qed.

(** One step of the loop over the sources, once the URL of the source has
    been parsed. *)
Lemma scan_sources_cons env flag state seen src rest total_new newly_seen fs domain :
  urlparse_netloc (src_url src) = Some domain →
  scan_sources env flag state seen (src :: rest) total_new newly_seen fs =
    match fetch (net env (src_url src)) (src_url src) 2 with
    | (Return html_text, evf) =>
        let links := extract_links html_text (src_pattern src) domain in
        let '(t, n, evs) :=
          notify_links env flag state seen (src_name src) links total_new newly_seen in
        let '(r, fs', evs') := scan_sources env flag state seen rest t n fs in
        (r, fs', evf ++ Info_found (src_name src) (length links) :: evs ++ evs')
    | (Raise e, evf) =>
        let '(r, fs', evs') :=
          scan_sources env flag state seen rest total_new newly_seen fs in
        (r, fs', (evf ++ [Error_source (src_name src) e]) ++ evs')
    end.
Proof.
  intros Hd. simpl. rewrite Hd.
  pose proof (fetch_loop_raises (net env (src_url src)) (src_url src)
                (seq 0 (2 + 1)) "None") as Hexn.
  unfold mbind, prog_bind, Prog.bind, Prog.lift, Prog.try_except,
    Prog.lift_trace, Prog.emit, mret, prog_ret, Prog.ret. simpl.
  unfold fetch.
  destruct (fetch_loop (net env (src_url src)) (src_url src) (seq 0 (2 + 1)) "None")
    as [[html_text|e] evf]; simpl in *.
  - destruct (notify_links env flag state seen (src_name src)
                (extract_links html_text (src_pattern src) domain)
                total_new newly_seen) as [[t n] evs].
    simpl.
    destruct (scan_sources env flag state seen rest t n fs) as [[r fs'] evs'].
    by rewrite app_nil_r.
  - rewrite (Hexn e eq_refl). simpl.
    destruct (scan_sources env flag state seen rest total_new newly_seen fs)
      as [[r fs'] evs'].
    done.
Qed.


Lemma scan_sources_unparsed env flag state seen src rest total_new newly_seen fs :
  urlparse_netloc (src_url src) = None →
  scan_sources env flag state seen (src :: rest) total_new newly_seen fs
    = (Raise (ValueError (src_url src)), fs, []).
Proof. intros Hd. simpl. by rewrite Hd. Qed.

Lemma fresh_of_fetched env seen src domain html_text evf :
  urlparse_netloc (src_url src) = Some domain →
  fetch (net env (src_url src)) (src_url src) 2 = (Return html_text, evf) →
  fresh_of env seen src =
    Msg (src_name src) <$>
      filter (λ l, sha_of l ∉ seen) (extract_links html_text (src_pattern src) domain).
Proof.
  intros Hd Hf. unfold fresh_of, candidates, fetched. by rewrite Hd, Hf.
Qed.

Lemma fresh_of_failed env seen src e evf :
  fetch (net env (src_url src)) (src_url src) 2 = (Raise e, evf) →
  fetched env src = None ∧ fresh_of env seen src = [].
Proof.
  intros Hf. unfold fresh_of, candidates, fetched. rewrite Hf. simpl.
  by destruct (urlparse_netloc (src_url src)).
Qed.

(** The loop over the sources when every source URL parses: it returns,
    leaves the files alone, and has made one attempt for each fresh link
    of each source that could be fetched. *)
Lemma scan_sources_spec env flag state seen sources total_new newly_seen fs :
  urls_parse sources →
  let fresh := fresh_links env seen sources in
  ∃ evs,
    scan_sources env flag state seen sources total_new newly_seen fs
      = (Return (total_new + length fresh, newly_seen ++ (fingerprint <$> fresh)),
         fs, evs) ∧
    attempts evs = fresh ∧
    notifier_calls evs = (if notifying flag state then fresh else []) ∧
    dry_runs evs = (if notifying flag state then [] else fresh) ∧
    source_errors evs = src_name <$> filter (λ src, fetched env src = None) sources.
Proof.
  intros Hparse. revert total_new newly_seen.
  induction Hparse as [|src rest [domain Hd] _ IH]; intros total_new newly_seen.
  - exists []. simpl. by rewrite Nat.add_0_r, app_nil_r; destruct (notifying flag state).
  - rewrite (scan_sources_cons _ _ _ _ _ _ _ _ _ _ Hd).
    destruct (fetch (net env (src_url src)) (src_url src) 2)
      as [[html_text|e] evf] eqn:Hf.
    + cbv zeta.
      pose proof (fresh_of_fetched env seen _ _ _ _ Hd Hf) as Hfresh.
      destruct (notify_links_spec env flag state seen (src_name src)
                  (extract_links html_text (src_pattern src) domain)
                  total_new newly_seen) as (evs & -> & Ha & Hc & Hdr & He).
      rewrite <-Hfresh in *. simpl.
      destruct (IH (total_new + length (fresh_of env seen src))
                   (newly_seen ++ (fingerprint <$> fresh_of env seen src)))
        as (evs' & -> & Ha' & Hc' & Hdr' & He').
      eexists. split.
      { unfold fresh_links. simpl. rewrite length_app, fmap_app.
        rewrite Nat.add_assoc, <-app_assoc. reflexivity. }
      assert (fetched env src ≠ None) as Hok by (unfold fetched; by rewrite Hf).
      rewrite filter_cons_False by done.
      change (evf ++ Info_found (src_name src)
                (length (extract_links html_text (src_pattern src) domain))
                :: evs ++ evs')
        with (evf ++ [Info_found (src_name src)
                (length (extract_links html_text (src_pattern src) domain))]
                ++ evs ++ evs').
      rewrite !attempts_app, !notifier_calls_app, !dry_runs_app, !source_errors_app.
      rewrite Ha, Hc, Hdr, He, Ha', Hc', Hdr', He'.
      destruct (fetch_silent _ _ _ _ _ Hf) as (-> & -> & -> & ->).
      unfold fresh_links. simpl. by destruct (notifying flag state).
    + cbv zeta.
      destruct (fresh_of_failed env seen _ _ _ Hf) as [Hnone Hfresh].
      destruct (IH total_new newly_seen) as (evs' & -> & Ha' & Hc' & Hdr' & He').
      eexists. split.
      { unfold fresh_links. simpl. rewrite Hfresh. reflexivity. }
      rewrite filter_cons_True by done.
      rewrite !attempts_app, !notifier_calls_app, !dry_runs_app, !source_errors_app.
      rewrite Ha', Hc', Hdr', He'.
      destruct (fetch_silent _ _ _ _ _ Hf) as (-> & -> & -> & ->).
      unfold fresh_links. simpl. rewrite Hfresh. by destruct (notifying flag state).
Qed.

(** Whatever its outcome, the loop leaves the files alone and attempts
    only links whose fingerprint is not in [seen]; it returns only when
    every source URL parses. *)
Lemma scan_sources_any env flag state seen sources total_new newly_seen fs r fs' evs :
  scan_sources env flag state seen sources total_new newly_seen fs = (r, fs', evs) →
  fs' = fs ∧
  (∀ m, m ∈ attempts evs → fingerprint m ∉ seen) ∧
  (∀ x, r = Return x → urls_parse sources).
Proof.
  revert total_new newly_seen r evs.
  induction sources as [|src rest IH]; intros total_new newly_seen r evs.
  - simpl. intros [= <- <- <-]. split; [done |]. split; [|by constructor].
    by intros m ?%elem_of_nil.
  - destruct (urlparse_netloc (src_url src)) as [domain|] eqn:Hd.
    + rewrite (scan_sources_cons _ _ _ _ _ _ _ _ _ _ Hd).
      destruct (fetch (net env (src_url src)) (src_url src) 2)
        as [[html_text|e] evf] eqn:Hf;
        destruct (fetch_silent _ _ _ _ _ Hf) as (Hfa & _); cbv zeta.
      * destruct (notify_links_spec env flag state seen (src_name src)
                    (extract_links html_text (src_pattern src) domain)
                    total_new newly_seen) as (evs1 & -> & Ha & _).
        simpl.
        destruct (scan_sources env flag state seen rest _ _ fs)
          as [[r' fs''] evs'] eqn:Hrest.
        intros [= <- <- <-]. apply IH in Hrest as (-> & Hfresh & Hret).
        split; [done |]. split.
        -- intros m.
           change (evf ++ ?e :: evs1 ++ evs') with (evf ++ [e] ++ evs1 ++ evs').
           rewrite !attempts_app, Hfa, Ha. simpl.
           intros [Hm | Hm]%elem_of_app; [|by apply Hfresh].
           apply list_elem_of_fmap in Hm as (l & -> & Hl).
           by apply list_elem_of_filter in Hl as [Hl _].
        -- intros x Hx. constructor; [by eexists | by eapply Hret].
      * destruct (scan_sources env flag state seen rest _ _ fs)
          as [[r' fs''] evs'] eqn:Hrest.
        intros [= <- <- <-]. apply IH in Hrest as (-> & Hfresh & Hret).
        split; [done |]. split.
        -- intros m. rewrite !attempts_app, Hfa. simpl. apply Hfresh.
        -- intros x Hx. constructor; [by eexists | by eapply Hret].
    + rewrite scan_sources_unparsed by done. intros [= <- <- <-].
      split; [done |]. split; [by intros m ?%elem_of_nil | done].
Qed.

End CycleFacts.

Section RunCycleFacts.
Context {rt : Runtime}.

Lemma load_state_silent fs :
  attempts (load_state fs).2 = [] ∧ notifier_calls (load_state fs).2 = [] ∧
  dry_runs (load_state fs).2 = [] ∧ source_errors (load_state fs).2 = [].
Proof.
  destruct (load_state_cases fs) as (doc & evs & -> & H). simpl.
  destruct (fs !! STATE_FILE) as [[[d|d n|bytes]|why]|]; by destruct H as [_ ->].
Qed.

(** The dictionary written at the end of a cycle (lines 167-169). *)
Local Abbreviation saved state seen newly_seen :=
  (<["seen" := PList (elements (seen ∪ list_to_set newly_seen))]>
     (if negb (truthy (dict_get state "initialized" (PBool false)))
      then <["initialized" := PBool true]> state else state)).

(** A cycle that cannot build its seen set stops before doing anything. *)
Lemma run_cycle_not_started sources env flag fs e :
  cycle_start fs = Raise e →
  run_cycle sources env flag fs = (Raise e, fs, (load_state fs).2).
Proof.
  unfold cycle_start, run_cycle. intros Hs.
  destruct (load_state_cases fs) as (doc & evl & Hl & _). rewrite Hl in *. simpl in *.
  rewrite (bind_return _ _ _ _ _ _ Hl).
  unfold mbind, prog_bind, Prog.bind, Prog.lift.
  destruct (as_dict doc) as [state|e']; simpl; [|simplify_eq; by rewrite app_nil_r].
  destruct (py_set (dict_get state "seen" (PList []))) as [seen|e']; simplify_eq.
  simpl. by rewrite app_nil_r.
Qed.

(** A cycle that has its dictionary and seen set: the loop, then the save. *)
Lemma run_cycle_started sources env flag fs state seen :
  cycle_start fs = Return (state, seen) →
  run_cycle sources env flag fs =
    match scan_sources env flag state seen sources 0 [] fs with
    | (Raise e, fs1, evs) => (Raise e, fs1, (load_state fs).2 ++ evs)
    | (Return (total_new, newly_seen), fs1, evs) =>
        match save_state (save_fault env)
                (JObject (saved state seen newly_seen)) fs1 with
        | (Return _, fs2, _) =>
            (Return total_new, fs2, (load_state fs).2 ++ evs ++ [Info_done total_new])
        | (Raise e, fs2, _) => (Raise e, fs2, (load_state fs).2 ++ evs)
        end
    end.
Proof.
  unfold cycle_start, run_cycle. intros Hs.
  destruct (load_state_cases fs) as (doc & evl & Hl & _). rewrite Hl in *. simpl in *.
  rewrite (bind_return _ _ _ _ _ _ Hl).
  unfold mbind, prog_bind, Prog.bind, Prog.lift.
  destruct (as_dict doc) as [state'|e']; simpl; [|simplify_eq].
  destruct (py_set (dict_get state' "seen" (PList []))) as [seen'|e']; simplify_eq.
  simpl.
  destruct (scan_sources env flag state seen sources 0 [] fs)
    as [[[[total_new newly_seen]|e] fs1] evs]; simpl; [|done].
  pose proof (save_state_cases fs1 (JObject (saved state seen newly_seen))
                (save_fault env)) as Hsave. simpl in Hsave.
  destruct (save_state (save_fault env) (JObject (saved state seen newly_seen)) fs1)
    as [[[[]|e] fs2] evs2]; destruct Hsave as [-> _]; simpl.
  - done.
  - by rewrite app_nil_r.
Qed.


Lemma cycle_start_persisted fs state seen :
  cycle_start fs = Return (state, seen) → seen = persisted_seen fs.
Proof.
  unfold cycle_start, persisted_seen.
  destruct (load_state_cases fs) as (doc & evl & -> & H). simpl.
  destruct (fs !! STATE_FILE) as [[[[d|v]|d n|bytes]|why]|];
    try (destruct H as [-> _]; by intros [= <- <-]).
  destruct H as [-> _]. simpl.
  destruct (dict_get d "seen" (PList [])); simpl; by intros [= <- <-].
Qed.

(** A cycle returns when it has a dictionary and a seen set to start from,
    every source URL parses and the save meets no fault. *)
Lemma run_cycle_total sources env flag fs state seen :
  cycle_start fs = Return (state, seen) →
  urls_parse sources →
  save_fault env = No_fault →
  ∃ fs' evs,
    run_cycle sources env flag fs
      = (Return (length (fresh_links env seen sources)), fs', evs).
Proof.
  intros Hstart Hparse Hflt. rewrite (run_cycle_started _ _ _ _ _ _ Hstart).
  destruct (scan_sources_spec env flag state seen sources 0 [] fs Hparse)
    as (evs & -> & _).
  pose proof (save_state_cases fs
    (JObject (saved state seen ([] ++ (fingerprint <$> fresh_links env seen sources))))
    (save_fault env)) as Hsave. simpl in Hsave.
  destruct (save_state _ _ fs) as [[r fs2] evs2].
  rewrite Hflt in Hsave. destruct Hsave as (_ & -> & _). simpl. eauto.
Qed.

(** What a cycle that returned has done. *)
Lemma run_cycle_complete sources env flag fs n fs' evs :
  run_cycle sources env flag fs = (Return n, fs', evs) →
  ∃ state seen,
    cycle_start fs = Return (state, seen) ∧
    urls_parse sources ∧
    save_fault env = No_fault ∧
    let fresh := fresh_links env seen sources in
    n = length fresh ∧
    fs' !! STATE_FILE
      = Some (File (Json (JObject (saved state seen (fingerprint <$> fresh))))) ∧
    attempts evs = fresh ∧
    notifier_calls evs = (if notifying flag state then fresh else []) ∧
    dry_runs evs = (if notifying flag state then [] else fresh) ∧
    source_errors evs = src_name <$> filter (λ src, fetched env src = None) sources.
Proof.
  intros Hrun.
  destruct (cycle_start fs) as [[state seen]|e] eqn:Hstart;
    [|by rewrite (run_cycle_not_started _ _ _ _ _ Hstart) in Hrun].
  exists state, seen. split; [done |].
  rewrite (run_cycle_started _ _ _ _ _ _ Hstart) in Hrun.
  destruct (scan_sources env flag state seen sources 0 [] fs)
    as [[[[total_new newly_seen]|e] fs1] evs1] eqn:Hscan; [|done].
  destruct (scan_sources_any _ _ _ _ _ _ _ _ _ _ _ Hscan) as (-> & _ & Hparse).
  specialize (Hparse _ eq_refl). split; [done |].
  destruct (scan_sources_spec env flag state seen sources 0 [] fs Hparse)
    as (evs1' & Hscan' & Ha & Hc & Hd & He).
  rewrite Hscan in Hscan'. injection Hscan' as -> -> <-. simpl in *.
  pose proof (save_state_cases fs
    (JObject (saved state seen (fingerprint <$> fresh_links env seen sources)))
    (save_fault env)) as Hsave. simpl in Hsave.
  destruct (save_state _ _ fs) as [[[[]|e] fs2] evs2]; [|done].
  injection Hrun as <- <- <-.
  destruct (save_fault env) as [|p f]; [|by destruct Hsave as (_ & ? & _)].
  destruct Hsave as (_ & _ & Hfile & _).
  destruct (load_state_silent fs) as (La & Lc & Ld & Le).
  rewrite !attempts_app, !notifier_calls_app, !dry_runs_app, !source_errors_app.
  rewrite La, Lc, Ld, Le, Ha, Hc, Hd, He. simpl. rewrite !app_nil_r.
  done.
Qed.

Lemma persisted_seen_saved fs (state : gmap string pyval) (seen : gset string)
    (newly_seen : list string) :
  fs !! STATE_FILE = Some (File (Json (JObject (saved state seen newly_seen)))) →
  persisted_seen fs = seen ∪ list_to_set newly_seen.
Proof.
  intros Hfile. unfold persisted_seen, dict_get. rewrite Hfile.
  rewrite lookup_insert_eq. simpl. apply set_eq. intros k.
  by rewrite elem_of_list_to_set, elem_of_elements.
Qed.

Lemma persisted_seen_ext fs1 fs2 :
  fs1 !! STATE_FILE = fs2 !! STATE_FILE → persisted_seen fs1 = persisted_seen fs2.
Proof. intros H. unfold persisted_seen. by rewrite H. Qed.

(** Whatever its outcome, a cycle attempts only fingerprints that are not
    in the state file it started from, and leaves a state file that holds
    at least the fingerprints it started with. *)
Lemma run_cycle_any sources env flag fs r fs' evs :
  run_cycle sources env flag fs = (r, fs', evs) →
  (∀ m, m ∈ attempts evs → fingerprint m ∉ persisted_seen fs) ∧
  persisted_seen fs ⊆ persisted_seen fs'.
Proof.
  intros Hrun. destruct (load_state_silent fs) as (La & _).
  destruct (cycle_start fs) as [[state seen]|e] eqn:Hstart.
  - pose proof (cycle_start_persisted _ _ _ Hstart) as Hseen.
    rewrite (run_cycle_started _ _ _ _ _ _ Hstart) in Hrun.
    destruct (scan_sources env flag state seen sources 0 [] fs)
      as [[[[total_new newly_seen]|e] fs1] evs1] eqn:Hscan.
    + destruct (scan_sources_any _ _ _ _ _ _ _ _ _ _ _ Hscan) as (-> & Hfresh & _).
      rewrite Hseen in Hfresh.
      pose proof (save_state_cases fs (JObject (saved state seen newly_seen))
                    (save_fault env)) as Hsave. simpl in Hsave.
      destruct (save_state _ _ fs) as [[[[]|e] fs2] evs2];
        injection Hrun as <- <- <-;
        rewrite ?attempts_app, La; simpl; rewrite ?attempts_app, ?app_nil_r.
      * split; [done |].
        destruct (save_fault env) as [|p f]; [|by destruct Hsave as (_ & ? & _)].
        destruct Hsave as (_ & _ & Hfile & _).
        rewrite (persisted_seen_saved _ _ _ _ Hfile), <-Hseen. set_solver.
      * split; [done |].
        destruct (save_fault env) as [|p f]; [by destruct Hsave as (_ & ? & _) |].
        destruct Hsave as (_ & _ & Hfile & _).
        by rewrite (persisted_seen_ext _ _ Hfile).
    + destruct (scan_sources_any _ _ _ _ _ _ _ _ _ _ _ Hscan) as (-> & Hfresh & _).
      rewrite Hseen in Hfresh.
      injection Hrun as <- <- <-. rewrite attempts_app, La. done.
  - rewrite (run_cycle_not_started _ _ _ _ _ Hstart) in Hrun.
    injection Hrun as <- <- <-. rewrite La. split; [|done].
    by intros m ?%elem_of_nil.
Qed.

Lemma saved_seen (state : gmap string pyval) (seen : gset string)
    (newly_seen : list string) :
  ∃ l, saved state seen newly_seen !! "seen" = Some (PList l) ∧
       NoDup l ∧ ∀ k, k ∈ l ↔ k ∈ seen ∨ k ∈ newly_seen.
Proof.
  eexists. split; [apply lookup_insert_eq |]. split; [apply NoDup_elements |].
  intros k. by rewrite elem_of_elements, elem_of_union, elem_of_list_to_set.
Qed.

Lemma saved_initialized (state : gmap string pyval) (seen : gset string)
    (newly_seen : list string) :
  truthy (dict_get (saved state seen newly_seen) "initialized" (PBool false)) = true ∧
  (truthy (dict_get state "initialized" (PBool false)) = false →
   saved state seen newly_seen !! "initialized" = Some (PBool true)).
Proof.
  unfold dict_get. rewrite lookup_insert_ne by done.
  destruct (truthy (default (PBool false) (state !! "initialized"))) eqn:Ht; simpl.
  - by rewrite Ht.
  - by rewrite lookup_insert_eq.
Qed.

Lemma saved_other (state : gmap string pyval) (seen : gset string)
    (newly_seen : list string) (key : string) :
  key ≠ "seen" → key ≠ "initialized" →
  saved state seen newly_seen !! key = state !! key.
Proof.
  intros H1 H2. rewrite lookup_insert_ne by done.
  destruct (negb _); [by rewrite lookup_insert_ne |done].
Qed.

(** The state file a returned cycle leaves behind. *)
Lemma run_cycle_persists sources env flag fs n fs' evs :
  run_cycle sources env flag fs = (Return n, fs', evs) →
  ∃ state seen d' l,
    cycle_start fs = Return (state, seen) ∧
    fs' !! STATE_FILE = Some (File (Json (JObject d'))) ∧
    d' !! "seen" = Some (PList l) ∧
    NoDup l ∧
    (∀ k, k ∈ l ↔ k ∈ seen ∨ k ∈ fingerprint <$> fresh_links env seen sources) ∧
    truthy (dict_get d' "initialized" (PBool false)) = true ∧
    (truthy (dict_get state "initialized" (PBool false)) = false →
     d' !! "initialized" = Some (PBool true)) ∧
    (∀ key, key ≠ "seen" → key ≠ "initialized" → d' !! key = state !! key).
Proof.
  intros (state & seen & Hstart & _ & _ & _ & Hfile & _)%run_cycle_complete.
  destruct (saved_seen state seen (fingerprint <$> fresh_links env seen sources))
    as (l & Hl & Hnd & Hin).
  destruct (saved_initialized state seen (fingerprint <$> fresh_links env seen sources))
    as [Hi1 Hi2].
  exists state, seen,
    (saved state seen (fingerprint <$> fresh_links env seen sources)), l.
  repeat split; try done; try apply Hin.
  intros key. apply saved_other.
Qed.

(** The state a cycle starts from when the file holds what a cycle saved. *)
Lemma cycle_start_after fs d l :
  fs !! STATE_FILE = Some (File (Json (JObject d))) →
  d !! "seen" = Some (PList l) →
  cycle_start fs = Return (d, list_to_set l).
Proof.
  intros Hfile Hseen. unfold cycle_start.
  destruct (load_state_cases fs) as (doc & evl & -> & H). rewrite Hfile in H.
  destruct H as [-> _]. simpl. unfold dict_get. by rewrite Hseen.
Qed.

Lemma fetched_ext env1 env2 src : net env2 = net env1 → fetched env2 src = fetched env1 src.
Proof. intros Hnet. unfold fetched. by rewrite Hnet. Qed.

Lemma fresh_links_nil env seen sources :
  (∀ src l, src ∈ sources → l ∈ candidates env src → sha_of l ∈ seen) →
  fresh_links env seen sources = [].
Proof.
  intros Hall. unfold fresh_links.
  induction sources as [|src rest IH]; [done |]. simpl.
  rewrite IH by (intros src' l Hs; apply Hall; by right).
  rewrite app_nil_r. unfold fresh_of.
  replace (filter (λ l, sha_of l ∉ seen) (candidates env src)) with (@nil string);
    [done |].
  symmetry. apply elem_of_nil_inv. intros l [Hnot Hl]%list_elem_of_filter.
  apply Hnot, (Hall src); [by left | done].
Qed.

Lemma elem_of_fresh_links env seen sources m :
  m ∈ fresh_links env seen sources ↔
  ∃ src, src ∈ sources ∧ msg_name m = src_name src ∧
         msg_link m ∈ candidates env src ∧ fingerprint m ∉ seen.
Proof.
  unfold fresh_links. rewrite list_elem_of_In, in_flat_map. split.
  - intros (src & Hsrc%list_elem_of_In & Hm%list_elem_of_In). exists src.
    unfold fresh_of in Hm.
    apply list_elem_of_fmap in Hm as (l & -> & [Hf Hl]%list_elem_of_filter). done.
  - intros (src & Hsrc & Hname & Hl & Hf). exists src.
    rewrite <-!list_elem_of_In. split; [done |]. unfold fresh_of.
    apply list_elem_of_fmap. exists (msg_link m). split.
    + destruct m as [nm lk]. simpl in *. by rewrite Hname.
    + by apply list_elem_of_filter.
Qed.


End RunCycleFacts.

(** ** The cycle as a whole *)

Section CycleSpec.
Context {rt : Runtime}.

(** What a cycle does when it has a state to start from, every source URL
    parses and the save meets no fault. *)
Lemma run_cycle_spec sources env flag fs state seen :
  cycle_start fs = Return (state, seen) →
  urls_parse sources →
  save_fault env = No_fault →
  let fresh := fresh_links env seen sources in
  ∃ fs' evs d' l,
    run_cycle sources env flag fs = (Return (length fresh), fs', evs) ∧
    attempts evs = fresh ∧
    notifier_calls evs = (if notifying flag state then fresh else []) ∧
    dry_runs evs = (if notifying flag state then [] else fresh) ∧
    source_errors evs = src_name <$> filter (λ src, fetched env src = None) sources ∧
    fs' !! STATE_FILE = Some (File (Json (JObject d'))) ∧
    d' !! "seen" = Some (PList l) ∧
    NoDup l ∧
    (∀ k, k ∈ l ↔ k ∈ seen ∨ k ∈ fingerprint <$> fresh) ∧
    (truthy (dict_get state "initialized" (PBool false)) = false →
     d' !! "initialized" = Some (PBool true)).
Proof.
  intros Hstart Hparse Hflt fresh.
  destruct (run_cycle_total sources env flag fs state seen Hstart Hparse Hflt)
    as (fs' & evs & Hrun).
  destruct (run_cycle_complete _ _ _ _ _ _ _ Hrun)
    as (state' & seen' & Hstart' & _ & _ & _ & _ & Ha & Hc & Hd & He).
  destruct (run_cycle_persists _ _ _ _ _ _ _ Hrun)
    as (state'' & seen'' & d' & l & Hstart'' & Hfile & Hl & Hnd & Hin & _ & Hinit & _).
  rewrite Hstart in Hstart', Hstart''. simplify_eq.
  exists fs', evs, d', l. done.
Qed.

Lemma NoDup_fresh_of env seen src : NoDup (fresh_of env seen src).
Proof.
  unfold fresh_of. apply NoDup_fmap_2; [by intros ?? [=] |].
  apply NoDup_filter. unfold candidates.
  destruct (urlparse_netloc (src_url src)); [|constructor].
  destruct (fetched env src); [apply NoDup_extract_links | constructor].
Qed.

Lemma fresh_links_app env seen xs ys :
  fresh_links env seen (xs ++ ys) = fresh_links env seen xs ++ fresh_links env seen ys.
Proof. apply flat_map_app. Qed.

Lemma fresh_of_unfetched env seen src : fetched env src = None → fresh_of env seen src = [].
Proof.
  intros Hf. unfold fresh_of, candidates. rewrite Hf.
  by destruct (urlparse_netloc (src_url src)).
Qed.

Lemma candidates_ext env1 env2 src :
  net env2 = net env1 → candidates env2 src = candidates env1 src.
Proof. intros Hnet. unfold candidates, fetched. by rewrite Hnet. Qed.








End CycleSpec.

(** ** The claims about the cycle *)

Section CycleClaims.
Context {rt : Runtime}.


(** C2.  When a cycle has returned and the next cycle gets the same replies
    from every source and meets no fault on saving, the next cycle returns
    0, calls the Notifier for nothing and logs no dry run. *)
Theorem second_run_finds_nothing sources env1 env2 flag1 flag2 fs n1 fs1 evs1 :
  run_cycle sources env1 flag1 fs = (Return n1, fs1, evs1) →
  net env2 = net env1 →
  save_fault env2 = No_fault →
  ∃ fs2 evs2,
    run_cycle sources env2 flag2 fs1 = (Return 0, fs2, evs2) ∧
    notifier_calls evs2 = [] ∧ dry_runs evs2 = [] ∧
    persisted_seen fs2 = persisted_seen fs1.
Proof.
  intros Hrun Hnet Hflt.
  destruct (run_cycle_complete _ _ _ _ _ _ _ Hrun)
    as (state & seen & Hstart & Hparse & _ & _ & _ & _).
  destruct (run_cycle_persists _ _ _ _ _ _ _ Hrun)
    as (state' & seen' & d' & l & Hstart' & Hfile & Hl & _ & Hin & _).
  rewrite Hstart in Hstart'. simplify_eq.
  pose proof (cycle_start_after _ _ _ Hfile Hl) as Hstart1.
  assert (fresh_links env2 (list_to_set l) sources = []) as Hnil.
  { apply fresh_links_nil. intros src k Hsrc Hk.
    rewrite (candidates_ext env1 env2 src Hnet) in Hk.
    apply elem_of_list_to_set, Hin.
    destruct (decide (sha_of k ∈ seen')) as [|Hnew]; [by left | right].
    apply list_elem_of_fmap. exists (Msg (src_name src) k). split; [done |].
    apply elem_of_fresh_links. by exists src. }
  destruct (run_cycle_spec sources env2 flag2 fs1 _ _ Hstart1 Hparse Hflt)
    as (fs2 & evs2 & d2 & l2 & Hrun2 & _ & Hc & Hd & _ & Hfile2 & Hl2 & _ & Hin2 & _).
  rewrite Hnil in *. simpl in *.
  exists fs2, evs2. split; [done |].
  split; [by destruct (notifying flag2 d') |].
  split; [by destruct (notifying flag2 d') |].
  unfold persisted_seen, dict_get. rewrite Hfile, Hfile2, Hl, Hl2. simpl.
  apply set_eq. intros k. rewrite !elem_of_list_to_set, Hin2, elem_of_list_to_set.
  split; [by intros [?|?%elem_of_nil] | by left].
Qed.

(** C3.  A cycle that starts from a state that is not initialized, with
    first-run notification off, and finds the previously-unseen links
    [fresh], calls the Notifier for none of them, logs each as a dry run,
    returns their number, and leaves a state file with all their
    fingerprints under ["seen"] and ["initialized"] true.  When the state is
    initialized or first-run notification is on, the Notifier is called for
    each of them, in order, and nothing is logged as a dry run. *)
Theorem first_run_suppression sources env flag fs state seen :
  cycle_start fs = Return (state, seen) →
  urls_parse sources →
  save_fault env = No_fault →
  let fresh := fresh_links env seen sources in
  ∃ fs' evs d' l,
    run_cycle sources env flag fs = (Return (length fresh), fs', evs) ∧
    fs' !! STATE_FILE = Some (File (Json (JObject d'))) ∧
    d' !! "seen" = Some (PList l) ∧
    (∀ m, m ∈ fresh → fingerprint m ∈ l) ∧
    (flag = false ∧ truthy (dict_get state "initialized" (PBool false)) = false →
     notifier_calls evs = [] ∧ dry_runs evs = fresh ∧
     d' !! "initialized" = Some (PBool true)) ∧
    (flag = true ∨ truthy (dict_get state "initialized" (PBool false)) = true →
     notifier_calls evs = fresh ∧ dry_runs evs = []).
Proof.
  intros Hstart Hparse Hflt fresh.
  destruct (run_cycle_spec sources env flag fs _ _ Hstart Hparse Hflt)
    as (fs' & evs & d' & l & Hrun & _ & Hc & Hd & _ & Hfile & Hl & _ & Hin & Hinit).
  exists fs', evs, d', l. repeat split; try done.
  - intros m Hm. apply Hin. right. apply list_elem_of_fmap. by exists m.
  - destruct H as [-> Ht]. unfold notifying in Hc. by rewrite Ht in Hc.
  - destruct H as [-> Ht]. unfold notifying in Hd. by rewrite Ht in Hd.
  - destruct H as [_ Ht]. by apply Hinit.
  - unfold notifying in Hc. destruct H as [-> | Ht]; [done |].
    rewrite Ht in Hc. by rewrite orb_true_r in Hc.
  - unfold notifying in Hd. destruct H as [-> | Ht]; [done |].
    rewrite Ht in Hd. by rewrite orb_true_r in Hd.
Qed.

(** C4.  The ["seen"] list in the state file a returned cycle leaves holds
    every fingerprint of the seen set the cycle loaded and the fingerprint
    of every previously-unseen link it found, whatever the sources and the
    Notifier answered and whether notifying was on or off. *)
Theorem seen_set_only_grows sources env flag fs n fs' evs :
  run_cycle sources env flag fs = (Return n, fs', evs) →
  ∃ state seen d' l,
    cycle_start fs = Return (state, seen) ∧
    fs' !! STATE_FILE = Some (File (Json (JObject d'))) ∧
    d' !! "seen" = Some (PList l) ∧
    (∀ k, k ∈ seen → k ∈ l) ∧
    (∀ m, m ∈ fresh_links env seen sources → fingerprint m ∈ l) ∧
    persisted_seen fs ⊆ persisted_seen fs'.
Proof.
  intros Hrun.
  destruct (run_cycle_persists _ _ _ _ _ _ _ Hrun)
    as (state & seen & d' & l & Hstart & Hfile & Hl & _ & Hin & _).
  exists state, seen, d', l. repeat split; try done.
  - intros k Hk. apply Hin. by left.
  - intros m Hm. apply Hin. right. apply list_elem_of_fmap. by exists m.
  - by apply (run_cycle_any _ _ _ _ _ _ _ Hrun).
Qed.

(** C5.  When the fetch of one source fails after its retries, the cycle
    logs the failure and goes on: it returns the number of previously-unseen
    links of the other sources, attempts exactly those, and leaves their
    fingerprints in the state file, as if the failing source were not
    configured. *)
Theorem failing_source_is_skipped before bad after env flag fs state seen :
  cycle_start fs = Return (state, seen) →
  urls_parse (before ++ bad :: after) →
  save_fault env = No_fault →
  fetched env bad = None →
  let others := fresh_links env seen (before ++ after) in
  ∃ fs' evs d' l,
    run_cycle (before ++ bad :: after) env flag fs
      = (Return (length others), fs', evs) ∧
    src_name bad ∈ source_errors evs ∧
    attempts evs = others ∧
    notifier_calls evs = (if notifying flag state then others else []) ∧
    dry_runs evs = (if notifying flag state then [] else others) ∧
    fs' !! STATE_FILE = Some (File (Json (JObject d'))) ∧
    d' !! "seen" = Some (PList l) ∧
    (∀ m, m ∈ others → fingerprint m ∈ l).
Proof.
  intros Hstart Hparse Hflt Hbad others.
  destruct (run_cycle_spec _ env flag fs _ _ Hstart Hparse Hflt)
    as (fs' & evs & d' & l & Hrun & Ha & Hc & Hd & He & Hfile & Hl & _ & Hin & _).
  assert (fresh_links env seen (before ++ bad :: after) = others) as Heq.
  { unfold others. rewrite !fresh_links_app.
    change (bad :: after) with ([bad] ++ after). rewrite fresh_links_app.
    unfold fresh_links at 2. simpl. by rewrite (fresh_of_unfetched _ _ _ Hbad). }
  rewrite Heq in *.
  exists fs', evs, d', l. repeat split; try done.
  - rewrite He. apply list_elem_of_fmap. exists bad. split; [done |].
    apply list_elem_of_filter. split; [done |].
    apply elem_of_app. right. by left.
  - intros m Hm. apply Hin. right. apply list_elem_of_fmap. by exists m.
Qed.

(** C10.  The ["seen"] list in the state file a returned cycle leaves has no
    duplicates, and holds exactly the fingerprints of the loaded seen set
    and those of the previously-unseen links. *)
Theorem persisted_seen_has_no_duplicates sources env flag fs n fs' evs :
  run_cycle sources env flag fs = (Return n, fs', evs) →
  ∃ state seen d' l,
    cycle_start fs = Return (state, seen) ∧
    fs' !! STATE_FILE = Some (File (Json (JObject d'))) ∧
    d' !! "seen" = Some (PList l) ∧
    NoDup l ∧
    (∀ k, k ∈ l ↔ k ∈ seen ∨ ∃ m, m ∈ fresh_links env seen sources ∧ fingerprint m = k).
Proof.
  intros Hrun.
  destruct (run_cycle_persists _ _ _ _ _ _ _ Hrun)
    as (state & seen & d' & l & Hstart & Hfile & Hl & Hnd & Hin & _).
  exists state, seen, d', l. repeat split; try done.
  - intros [?|(m & -> & Hm)%list_elem_of_fmap]%Hin; [by left | right; eauto].
  - intros [?|(m & Hm & <-)]; apply Hin; [by left | right].
    apply list_elem_of_fmap. eauto.
Qed.

(** C9.  [load_state] returns on every file system and leaves it as it
    was: the stored document when the file holds one, and otherwise
    [{"seen": []}], silently when the file is absent and after a warning
    when it cannot be read or parsed.  The fresh state has an empty seen
    set and reads as not initialized. *)
Theorem load_state_never_raises (fs : gmap string node) :
  (∃ doc evs,
     load_state fs = (Return doc, fs, evs) ∧
     match fs !! STATE_FILE with
     | None => doc = fresh_state ∧ evs = []
     | Some (Unreadable why) =>
         doc = fresh_state ∧ evs = [Warn_state (OSError why)]
     | Some (File (Json d)) => doc = d ∧ evs = []
     | Some (File _) =>
         doc = fresh_state ∧ evs = [Warn_state JSONDecodeError]
     end) ∧
  (∃ d, as_dict fresh_state = Return d ∧
        py_set (dict_get d "seen" (PList [])) = Return ∅ ∧
        truthy (dict_get d "initialized" (PBool false)) = false).
Proof.
  split; [apply load_state_cases |].
  eexists. split; [done |]. by vm_compute.
Qed.

(** C6.  [save_state] writes the whole state to the temporary path and
    only then renames it over the canonical path.  Without a fault it
    returns and the canonical file holds exactly the new state; with a
    fault at any point (an error or a stop while opening, writing or
    before the rename) the canonical file is what it was, and a partial
    write has only reached the temporary file.  In no case does the
    canonical file hold anything but its old content or the complete new
    state. *)
Theorem save_state_atomic (fs : gmap string node) (state : json_doc) (flt : fault) :
  let tmp := STATE_FILE +:+ ".tmp" in
  let '(r, fs', evs) := save_state flt state fs in
  match flt with
  | No_fault =>
      r = Return tt ∧ fs' !! STATE_FILE = Some (File (Json state)) ∧
      fs' !! tmp = None
  | Fault p f =>
      r = Raise (failure_exn f) ∧ fs' !! STATE_FILE = fs !! STATE_FILE ∧
      match p with
      | At_open => fs' = fs
      | At_write n => fs' !! tmp = Some (File (Truncated state n))
      | At_replace => fs' !! tmp = Some (File (Json state))
      end
  end ∧
  (fs' !! STATE_FILE = fs !! STATE_FILE ∨
   fs' !! STATE_FILE = Some (File (Json state))).
Proof.
  pose proof (save_state_cases fs state flt) as H. simpl in *.
  destruct (save_state flt state fs) as [[r fs'] evs].
  destruct H as [_ H]. split; [done |].
  destruct flt as [|p f]; [right | left]; tauto.
Qed.

End CycleClaims.

(** ** The theorems at work on the small runtime *)

Lemma demo_urls_parse : urls_parse (rt := Demo.runtime) Demo.both.
Proof. repeat constructor; by eexists. Qed.

(** *** The configured sources *)







(** Two searches of one portal that list the same links: the cycle calls the
    Notifier for each link once per search. *)
Lemma same_link_from_two_sources_attempted_twice :
  notifier_calls Demo.first_run.2
    = [Msg "rent" Demo.listing1; Msg "rent" Demo.listing2;
       Msg "sale" Demo.listing1; Msg "sale" Demo.listing2] ∧
  attempts Demo.first_run.2 = notifier_calls Demo.first_run.2.
Proof. split; by vm_compute. Qed.

Lemma second_run_finds_nothing_witness :
  Demo.first_run = (Return 4, Demo.first_run.1.2, Demo.first_run.2) ∧
  ∃ fs2 evs2,
    run_cycle (rt := Demo.runtime) Demo.both
      (Demo.env_both Demo.telegram_ok No_fault) true Demo.first_run.1.2
      = (Return 0, fs2, evs2) ∧
    notifier_calls evs2 = [] ∧ dry_runs evs2 = [] ∧
    persisted_seen (rt := Demo.runtime) fs2
      = persisted_seen (rt := Demo.runtime) Demo.first_run.1.2.
Proof.
  split; [by vm_compute |].
  apply (second_run_finds_nothing (rt := Demo.runtime) Demo.both
           (Demo.env_both Demo.telegram_ok No_fault)
           (Demo.env_both Demo.telegram_ok No_fault) true true ∅ 4
           Demo.first_run.1.2 Demo.first_run.2).
  - by vm_compute.
  - reflexivity.
  - reflexivity.
Defined.

Lemma first_run_suppression_witness :
  cycle_start (rt := Demo.runtime) ∅ = Return ({[ "seen" := PList [] ]}, ∅) ∧
  ∃ fs' evs d' l,
    run_cycle (rt := Demo.runtime) Demo.both
      (Demo.env_both Demo.telegram_ok No_fault) false ∅
      = (Return (length (fresh_links (rt := Demo.runtime)
                           (Demo.env_both Demo.telegram_ok No_fault) ∅ Demo.both)),
         fs', evs) ∧
    fs' !! STATE_FILE (Runtime := Demo.runtime) = Some (File (Json (JObject d'))) ∧
    d' !! "seen" = Some (PList l) ∧
    (∀ m, m ∈ fresh_links (rt := Demo.runtime)
                (Demo.env_both Demo.telegram_ok No_fault) ∅ Demo.both →
          fingerprint (rt := Demo.runtime) m ∈ l) ∧
    (false = false ∧
     truthy (dict_get {[ "seen" := PList [] ]} "initialized" (PBool false)) = false →
     notifier_calls evs = [] ∧
     dry_runs evs = fresh_links (rt := Demo.runtime)
                      (Demo.env_both Demo.telegram_ok No_fault) ∅ Demo.both ∧
     d' !! "initialized" = Some (PBool true)) ∧
    (false = true ∨
     truthy (dict_get {[ "seen" := PList [] ]} "initialized" (PBool false)) = true →
     notifier_calls evs = fresh_links (rt := Demo.runtime)
                            (Demo.env_both Demo.telegram_ok No_fault) ∅ Demo.both ∧
     dry_runs evs = []).
Proof.
  split; [by vm_compute |].
  apply (first_run_suppression (rt := Demo.runtime) Demo.both
           (Demo.env_both Demo.telegram_ok No_fault) false ∅
           {[ "seen" := PList [] ]} ∅).
  - by vm_compute.
  - repeat constructor; by eexists.
  - reflexivity.
Defined.

Lemma seen_set_only_grows_witness :
  Demo.first_run = (Return 4, Demo.first_run.1.2, Demo.first_run.2) ∧
  ∃ state seen d' l,
    cycle_start (rt := Demo.runtime) ∅ = Return (state, seen) ∧
    Demo.first_run.1.2 !! "seen_listings.json" = Some (File (Json (JObject d'))) ∧
    d' !! "seen" = Some (PList l) ∧
    (∀ k, k ∈ seen → k ∈ l) ∧
    (∀ m, m ∈ fresh_links (rt := Demo.runtime)
                (Demo.env_both Demo.telegram_ok No_fault) seen Demo.both →
          fingerprint (rt := Demo.runtime) m ∈ l) ∧
    persisted_seen (rt := Demo.runtime) ∅
      ⊆ persisted_seen (rt := Demo.runtime) Demo.first_run.1.2.
Proof.
  split; [by vm_compute |].
  apply (seen_set_only_grows (rt := Demo.runtime) Demo.both
           (Demo.env_both Demo.telegram_ok No_fault) true ∅ 4
           Demo.first_run.1.2 Demo.first_run.2).
  by vm_compute.
Defined.

Lemma failing_source_is_skipped_witness :
  fetched (Demo.env_rent_down Demo.no_telegram No_fault) Demo.rent
    = None ∧
  ∃ fs' evs d' l,
    run_cycle (rt := Demo.runtime) ([] ++ Demo.rent :: [Demo.sale])
      (Demo.env_rent_down Demo.no_telegram No_fault) true ∅
      = (Return (length (fresh_links (rt := Demo.runtime)
                           (Demo.env_rent_down Demo.no_telegram No_fault) ∅
                           ([] ++ [Demo.sale]))),
         fs', evs) ∧
    src_name Demo.rent ∈ source_errors evs ∧
    attempts evs
      = fresh_links (rt := Demo.runtime)
          (Demo.env_rent_down Demo.no_telegram No_fault) ∅ ([] ++ [Demo.sale]) ∧
    notifier_calls evs
      = (if notifying true {[ "seen" := PList [] ]}
         then fresh_links (rt := Demo.runtime)
                (Demo.env_rent_down Demo.no_telegram No_fault) ∅ ([] ++ [Demo.sale])
         else []) ∧
    dry_runs evs
      = (if notifying true {[ "seen" := PList [] ]}
         then []
         else fresh_links (rt := Demo.runtime)
                (Demo.env_rent_down Demo.no_telegram No_fault) ∅ ([] ++ [Demo.sale])) ∧
    fs' !! STATE_FILE (Runtime := Demo.runtime) = Some (File (Json (JObject d'))) ∧
    d' !! "seen" = Some (PList l) ∧
    (∀ m, m ∈ fresh_links (rt := Demo.runtime)
                (Demo.env_rent_down Demo.no_telegram No_fault) ∅ ([] ++ [Demo.sale]) →
          fingerprint (rt := Demo.runtime) m ∈ l).
Proof.
  split; [by vm_compute |].
  apply (failing_source_is_skipped (rt := Demo.runtime) [] Demo.rent [Demo.sale]
           (Demo.env_rent_down Demo.no_telegram No_fault) true ∅
           {[ "seen" := PList [] ]} ∅).
  - by vm_compute.
  - repeat constructor; by eexists.
  - reflexivity.
  - by vm_compute.
Defined.

(** The skipped source on the small runtime: two links, both of the search
    that answered. *)
Lemma demo_rent_down_links :
  fresh_links (rt := Demo.runtime) (Demo.env_rent_down Demo.no_telegram No_fault) ∅
    ([] ++ [Demo.sale])
  = [Msg "sale" Demo.listing1; Msg "sale" Demo.listing2].
Proof. by vm_compute. Qed.

Lemma persisted_seen_has_no_duplicates_witness :
  Demo.first_run = (Return 4, Demo.first_run.1.2, Demo.first_run.2) ∧
  ∃ state seen d' l,
    cycle_start (rt := Demo.runtime) ∅ = Return (state, seen) ∧
    Demo.first_run.1.2 !! "seen_listings.json" = Some (File (Json (JObject d'))) ∧
    d' !! "seen" = Some (PList l) ∧
    NoDup l ∧
    (∀ k, k ∈ l ↔
          k ∈ seen ∨
          ∃ m, m ∈ fresh_links (rt := Demo.runtime)
                     (Demo.env_both Demo.telegram_ok No_fault) seen Demo.both ∧
               fingerprint (rt := Demo.runtime) m = k).
Proof.
  split; [by vm_compute |].
  apply (persisted_seen_has_no_duplicates (rt := Demo.runtime) Demo.both
           (Demo.env_both Demo.telegram_ok No_fault) true ∅ 4
           Demo.first_run.1.2 Demo.first_run.2).
  by vm_compute.
Defined.

(** * Further properties of the code *)

(** ** Fetcher *)

Lemma fetch_loop_ok get url a n last_err i text :
  i < n →
  get (a + i) = Response 200 text →
  (∀ k, k < i → status_ok (get (a + k)) = false) →
  fetch_loop get url (seq a n) last_err
    = (Return text, (λ k, Slept (15 * (k + 1))) <$> seq a i).
Proof.
  revert a last_err i. induction n as [|n IH]; intros a last_err i Hi Hok Hbad; [lia |].
  simpl. destruct i as [|i].
  - rewrite Nat.add_0_r in Hok. by rewrite Hok.
  - pose proof (Hbad 0 ltac:(lia)) as H0. rewrite Nat.add_0_r in H0.
    rewrite (IH (S a) (show_last_err (get a)) i); [| lia | |].
    + simpl. destruct (get a) as [code body|msg]; [|done].
      simpl in H0. by rewrite H0.
    + by replace (S a + i) with (a + S i) by lia.
    + intros k Hk. replace (S a + k) with (a + S k) by lia. apply Hbad. lia.
Qed.

Lemma fetch_loop_exhausted get url a n last_err :
  (∀ k, k < n → status_ok (get (a + k)) = false) →
  fetch_loop get url (seq a n) last_err
    = (Raise (RuntimeError
                ("Errore nel fetch di " +:+ url +:+ ": " +:+
                 match n with
                 | 0 => last_err
                 | S m => show_last_err (get (a + m))
                 end)),
       (λ k, Slept (15 * (k + 1))) <$> seq a n).
Proof.
  revert a last_err. induction n as [|n IH]; intros a last_err Hbad; [done |].
  simpl. pose proof (Hbad 0 ltac:(lia)) as H0. rewrite Nat.add_0_r in H0.
  rewrite (IH (S a) (show_last_err (get a))).
  - assert (match n with
            | 0 => show_last_err (get a)
            | S m => show_last_err (get (S a + m))
            end = show_last_err (get (a + n))) as ->.
    { destruct n as [|m]; [by rewrite Nat.add_0_r |].
      by replace (S a + m) with (a + S m) by lia. }
    destruct (get a) as [code body|msg]; [|done].
    simpl in H0. by rewrite H0.
  - intros k Hk. replace (S a + k) with (a + S k) by lia. apply Hbad. lia.
Qed.

(** X1.  [fetch] returns the text of the first reply with status 200 among
    its [retries + 1] attempts, after one pause of [1.5 * (k + 1)] seconds
    for each failed attempt [k] before it, and none after it. *)
Theorem fetch_returns_first_ok get url retries i text :
  i ≤ retries →
  get i = Response 200 text →
  (∀ k, k < i → status_ok (get k) = false) →
  fetch get url retries = (Return text, backoff i).
Proof.
  intros Hi Hok Hbad. unfold fetch, backoff.
  apply (fetch_loop_ok get url 0 (retries + 1) "None" i text); [lia | done | done].
Qed.

(** X2.  When none of the [retries + 1] replies has status 200, [fetch]
    raises [RuntimeError] naming the URL and the last error it saw (the
    status or the exception text of the last attempt), having paused after
    every attempt, the last one included. *)
Theorem fetch_raises_when_exhausted get url retries :
  (∀ k, k ≤ retries → status_ok (get k) = false) →
  fetch get url retries
    = (Raise (RuntimeError ("Errore nel fetch di " +:+ url +:+ ": " +:+
                            show_last_err (get retries))),
       backoff (retries + 1)).
Proof.
  intros Hbad. unfold fetch, backoff.
  rewrite (fetch_loop_exhausted get url 0 (retries + 1) "None").
  - by replace (retries + 1) with (S retries) by lia.
  - intros k Hk. apply Hbad. lia.
Qed.

Lemma fetch_loop_ext get get' url attempts_left last_err :
  (∀ k, k ∈ attempts_left → get k = get' k) →
  fetch_loop get url attempts_left last_err
    = fetch_loop get' url attempts_left last_err.
Proof.
  revert last_err. induction attempts_left as [|i rest IH]; intros last_err Heq; [done |].
  simpl. rewrite <-(Heq i) by (by left).
  by rewrite IH by (intros k Hk; apply Heq; by right).
Qed.

(** X3.  [fetch] issues at most [retries + 1] requests: replies beyond the
    first [retries + 1] have no influence on its result or its pauses. *)
Theorem fetch_reads_bounded_replies get get' url retries :
  (∀ k, k ≤ retries → get k = get' k) →
  fetch get url retries = fetch get' url retries.
Proof.
  intros Heq. unfold fetch. apply fetch_loop_ext.
  intros k Hk%elem_of_seq. apply Heq. lia.
Qed.

(** ** Notifier *)

(** X4.  [telegram_notify] reports delivery exactly when both credentials
    are set to non-empty strings and the reply to the post has status 200;
    when a credential is missing it posts nothing. *)
Theorem telegram_notify_delivers_iff (t : telegram) (m : message) :
  ((telegram_notify t m).1 = true ↔
   unset (tg_token t) = false ∧ unset (tg_chat_id t) = false ∧
   status_ok (tg_post t m) = true) ∧
  (unset (tg_token t) = true ∨ unset (tg_chat_id t) = true →
   telegram_notify t m = (false, [Tg_skipped m])) ∧
  (unset (tg_token t) = false ∧ unset (tg_chat_id t) = false →
   (telegram_notify t m).2 = [Tg_posted m (tg_post t m)]).
Proof.
  unfold telegram_notify.
  destruct (unset (tg_token t)), (unset (tg_chat_id t)); simpl;
    try (split; [split; [done | by intros (? & ? & ?)] | split; [done | by intros [? ?]]]).
  destruct (tg_post t m) as [code body|msg]; simpl.
  - destruct (code =? 200)%Z; simpl; (split; [split |split]); try done; try tauto;
      by intros [?|?].
  - split; [split; [done | by intros (? & ? & ?)] | split; [by intros [?|?] | done]].
Qed.

(** ** Link extractor *)

Module PyStrMore.
Import PyStr PyStrFacts.

Lemma split_head_prefix (sep s : string) : ∃ rest, s = split_head sep s +:+ rest.
Proof.
  induction s as [|c s [rest IH]]; rewrite split_head_unfold.
  - exists "". by destruct (String.prefix sep "").
  - destruct (String.prefix sep (String c s)); [by exists (String c s) |].
    exists rest. rewrite append_cons. by rewrite <-IH.
Qed.

Lemma append_assoc (a b c : string) : (a +:+ b) +:+ c = a +:+ b +:+ c.
Proof. induction a as [|x a IH]; [done |]. rewrite !append_cons. by rewrite IH. Qed.

(** What does not occur in a string does not occur in its prefixes. *)
Lemma occurs_prefix (sub p rest : string) : occurs sub p → occurs sub (p +:+ rest).
Proof.
  intros (pre & post & ->). exists pre, (post +:+ rest).
  by rewrite !append_assoc.
Qed.

Lemma split_head_free (sep s : string) :
  sep ≠ "" → ¬ occurs sep (split_head sep s).
Proof.
  intros Hne (pre & post & Hocc).
  destruct (split_head_prefix sep s) as [rest Hs].
  assert (s = pre +:+ sep +:+ post +:+ rest) as Hs'.
  { rewrite Hs at 1. rewrite Hocc. by rewrite !append_assoc. }
  pose proof (split_head_first sep s pre (post +:+ rest) Hs') as Hlen.
  rewrite Hocc in Hlen. rewrite !length_append in Hlen.
  destruct sep; [done | simpl in Hlen; lia].
Qed.

End PyStrMore.

Section ExtractorMore.
Context {rt : Runtime}.

Lemma normalize_prefix (link : string) : ∃ rest, link = normalize link +:+ rest.
Proof.
  unfold normalize.
  destruct (PyStrMore.split_head_prefix "#" link) as [r1 H1].
  destruct (PyStrMore.split_head_prefix "?utm_" (PyStr.split_head "#" link)) as [r2 H2].
  exists (r2 +:+ r1). rewrite <-PyStrMore.append_assoc. by rewrite <-H2.
Qed.

Lemma normalize_free (link : string) :
  PyStr.contains "#" (normalize link) = false ∧
  PyStr.contains "?utm_" (normalize link) = false.
Proof.
  unfold normalize.
  destruct (PyStrMore.split_head_prefix "?utm_" (PyStr.split_head "#" link)) as [r2 H2].
  split; apply not_true_is_false; intros Hocc%PyStrFacts.contains_occurs.
  - apply (PyStrMore.split_head_free "#" link); [done |].
    rewrite H2. by apply PyStrMore.occurs_prefix.
  - by apply (PyStrMore.split_head_free "?utm_" (PyStr.split_head "#" link)).
Qed.

(** X5.  A normalized link is a prefix of the match it comes from and
    contains neither [#] nor [?utm_]. *)
Theorem normalize_strips (link : string) :
  (∃ rest, link = normalize link +:+ rest) ∧
  ¬ PyStr.occurs "#" (normalize link) ∧
  ¬ PyStr.occurs "?utm_" (normalize link).
Proof.
  destruct (normalize_free link) as [Hhash Hutm].
  split; [apply normalize_prefix |].
  rewrite <-!PyStrFacts.contains_occurs. rewrite Hhash, Hutm. done.
Qed.

(** X6.  Normalizing is idempotent: a link the extractor returned is left
    as it is when normalized again. *)
Theorem normalize_idempotent (link : string) :
  normalize (normalize link) = normalize link.
Proof.
  destruct (normalize_free link) as [Hhash Hutm].
  unfold normalize at 1.
  rewrite (PyStrFacts.split_head_absent "#") by done.
  by apply PyStrFacts.split_head_absent.
Qed.

Lemma clean_links_filter (links : list string) (domain : string) :
  clean_links links domain
    = filter (λ l, kept domain l = true) (normalize <$> links).
Proof.
  induction links as [|m links IH]; [done |].
  rewrite fmap_cons. simpl. unfold kept at 1. rewrite IH.
  destruct (urlparse_netloc (normalize m)) as [netloc|] eqn:Hn.
  - destruct (PyStr.contains domain netloc) eqn:Hc.
    + rewrite filter_cons_True; [done |]. unfold kept. by rewrite Hn.
    + rewrite filter_cons_False; [done |]. unfold kept. rewrite Hn. congruence.
  - rewrite filter_cons_False; [done |]. unfold kept. by rewrite Hn.
Qed.

Lemma dedupe_fresh (clean : list string) (seen : gset string) :
  NoDup clean → (∀ l, l ∈ clean → l ∉ seen) → dedupe clean seen = clean.
Proof.
  intros Hnd. revert seen. induction Hnd as [|x clean Hx Hnd IH]; intros seen Hout; [done |].
  simpl. destruct (decide (x ∈ seen)) as [Hin|_].
  - exfalso. apply (Hout x); [by left | done].
  - f_equal. apply IH. intros l Hl [->%elem_of_singleton | Hs]%elem_of_union.
    + done.
    + apply (Hout l); [by right | done].
Qed.

Lemma dedupe_filter (clean : list string) (seen : gset string) (x : string) :
  dedupe clean ({[x]} ∪ seen) = dedupe (filter (λ l, l ≠ x) clean) seen.
Proof.
  revert seen. induction clean as [|y clean IH]; intros seen; [done |].
  simpl. destruct (decide (y = x)) as [->|Hne].
  - rewrite filter_cons_False by (by intros ?).
    destruct (decide (x ∈ {[x]} ∪ seen)) as [_|Hn]; [apply IH | set_solver].
  - rewrite filter_cons_True by done. simpl.
    destruct (decide (y ∈ {[x]} ∪ seen)) as [Hin|Hnin];
      destruct (decide (y ∈ seen)) as [Hin'|Hnin']; try set_solver.
    f_equal. rewrite <-IH. f_equal. set_solver.
Qed.

Lemma dedupe_sublist (clean : list string) (seen : gset string) :
  sublist (dedupe clean seen) clean.
Proof.
  revert seen. induction clean as [|x clean IH]; intros seen; simpl; [done |].
  destruct (decide (x ∈ seen)).
  - by apply sublist_cons.
  - by apply sublist_skip.
Qed.

(** X7.  The dedupe loop keeps the first occurrence of every link and drops
    the later ones: its result has no duplicates, has the elements of its
    input, is a subsequence of it, starts with the first input link followed
    by the dedupe of the rest without that link, and is the input itself
    when the input has no duplicates. *)
Theorem dedupe_keeps_first_occurrences (clean : list string) :
  NoDup (dedupe clean ∅) ∧
  (∀ l, l ∈ dedupe clean ∅ ↔ l ∈ clean) ∧
  sublist (dedupe clean ∅) clean ∧
  (∀ x rest, clean = x :: rest →
     dedupe clean ∅ = x :: dedupe (filter (λ l, l ≠ x) rest) ∅) ∧
  (NoDup clean → dedupe clean ∅ = clean).
Proof.
  split; [apply NoDup_dedupe |]. split; [|split; [apply dedupe_sublist | split]].
  - intros l. rewrite elem_of_dedupe. set_solver.
  - intros x rest ->. simpl. f_equal. apply dedupe_filter.
  - intros Hnd. apply dedupe_fresh; [done | set_solver].
Qed.

(** X8.  [extract_links] returns, without duplicates and in the order of
    their first match, the normalized matches that pass the domain test;
    when these are distinct already it returns exactly them. *)
Theorem extract_links_ordered_unique (html_text pattern domain : string) :
  let normalized := normalize <$> re_findall pattern (html_unescape html_text) in
  NoDup (extract_links html_text pattern domain) ∧
  sublist (extract_links html_text pattern domain)
          (filter (λ l, kept domain l = true) normalized) ∧
  (NoDup (filter (λ l, kept domain l = true) normalized) →
   extract_links html_text pattern domain
     = filter (λ l, kept domain l = true) normalized).
Proof.
  intros normalized. unfold extract_links. rewrite clean_links_filter.
  fold normalized. split; [apply NoDup_dedupe |]. split; [apply dedupe_sublist |].
  intros Hnd. apply dedupe_fresh; [done | set_solver].
Qed.

Lemma contains_empty (s : string) : PyStr.contains "" s = true.
Proof. by destruct s. Qed.

(** X9.  With an empty domain (a source URL without a host) the domain test
    lets every match through whose URL parses. *)
Theorem empty_domain_filters_nothing (html_text pattern link : string) :
  link ∈ extract_links html_text pattern "" ↔
  ∃ m, m ∈ re_findall pattern (html_unescape html_text) ∧
       link = normalize m ∧ is_Some (urlparse_netloc link).
Proof.
  rewrite elem_of_extract_links. split.
  - intros (m & Hm & Hl & netloc & Hn & _). exists m. by rewrite Hn.
  - intros (m & Hm & Hl & netloc & Hn). exists m. split; [done |]. split; [done |].
    exists netloc. split; [done | apply contains_empty].
Qed.

End ExtractorMore.

(** ** Seen-set store *)

Section StoreMore.
Context {rt : Runtime}.

Lemma load_state_ext fs1 fs2 :
  fs1 !! STATE_FILE = fs2 !! STATE_FILE →
  (load_state fs1).1.1 = (load_state fs2).1.1 ∧ (load_state fs1).2 = (load_state fs2).2.
Proof.
  intros Heq.
  destruct (load_state_cases fs1) as (doc1 & evs1 & -> & H1).
  destruct (load_state_cases fs2) as (doc2 & evs2 & -> & H2).
  rewrite Heq in H1. simpl.
  destruct (fs2 !! STATE_FILE) as [[[d|d n|bytes]|why]|];
    destruct H1 as [-> ->], H2 as [-> ->]; done.
Qed.

(** X10.  What [save_state] saved without a fault is what [load_state]
    returns next, and it returns it without a warning. *)
Theorem load_returns_what_was_saved (fs : gmap string node) (state : json_doc) :
  let fs' := (save_state No_fault state fs).1.2 in
  (save_state No_fault state fs).1.1 = Return tt ∧
  load_state fs' = (Return state, fs', []).
Proof.
  pose proof (save_state_cases fs state No_fault) as H. simpl in *.
  destruct (save_state No_fault state fs) as [[r fs'] evs].
  destruct H as (_ & -> & Hfile & _). simpl. split; [done |].
  destruct (load_state_cases fs') as (doc & evl & -> & Hl).
  rewrite Hfile in Hl. by destruct Hl as [-> ->].
Qed.

(** X11.  A save that fails or is interrupted, at whatever point, is
    invisible to [load_state]: it returns the document, and prints the
    warning, that it would have without the save. *)
Theorem failed_save_is_invisible_to_load (fs : gmap string node) (state : json_doc)
    (p : save_point) (f : failure) :
  let fs' := (save_state (Fault p f) state fs).1.2 in
  (load_state fs').1.1 = (load_state fs).1.1 ∧
  (load_state fs').2 = (load_state fs).2.
Proof.
  pose proof (save_state_cases fs state (Fault p f)) as H. simpl in *.
  destruct (save_state (Fault p f) state fs) as [[r fs'] evs].
  destruct H as (_ & _ & Hfile & _). simpl. by apply load_state_ext.
Qed.

(** X12.  [save_state] changes no file other than the state file and its
    temporary companion, with or without a fault. *)
Theorem save_state_touches_two_paths (fs : gmap string node) (state : json_doc)
    (flt : fault) (path : string) :
  path ≠ STATE_FILE →
  path ≠ STATE_FILE +:+ ".tmp" →
  (save_state flt state fs).1.2 !! path = fs !! path.
Proof.
  intros H1 H2.
  unfold save_state, open_write, json_dump, os_replace,
    mbind, prog_bind, Prog.bind, Prog.get_fs, Prog.set_fs, Prog.raise.
  destruct flt as [|[|n|] f]; simpl.
  - rewrite lookup_insert_eq. simpl.
    rewrite lookup_insert_ne by done. rewrite lookup_delete_ne by done.
    rewrite lookup_insert_ne by done. by rewrite lookup_insert_ne by done.
  - done.
  - rewrite lookup_insert_ne by done. by rewrite lookup_insert_ne by done.
  - rewrite lookup_insert_ne by done. by rewrite lookup_insert_ne by done.
Qed.

End StoreMore.

(** ** Cycle orchestrator *)

Section CycleMore.
Context {rt : Runtime}.

Lemma cycle_start_ext fs1 fs2 :
  fs1 !! STATE_FILE = fs2 !! STATE_FILE → cycle_start fs1 = cycle_start fs2.
Proof.
  intros Heq. unfold cycle_start.
  by destruct (load_state_ext fs1 fs2 Heq) as [-> _].
Qed.

(** X13.  A state file that holds JSON of the wrong shape stops the cycle
    before it fetches anything: [AttributeError] when the document is not an
    object, [TypeError] when its ["seen"] entry is not a list.  Nothing is
    printed, attempted or written. *)
Theorem cycle_rejects_misshapen_state sources env flag (fs : gmap string node) :
  (∀ v, fs !! STATE_FILE = Some (File (Json (JValue v))) →
        run_cycle sources env flag fs = (Raise (AttributeError "get"), fs, [])) ∧
  (∀ d v, fs !! STATE_FILE = Some (File (Json (JObject d))) →
          d !! "seen" = Some v →
          (∀ l, v ≠ PList l) →
          ∃ what, run_cycle sources env flag fs = (Raise (TypeError what), fs, [])).
Proof.
  split.
  - intros v Hfile.
    destruct (load_state_cases fs) as (doc & evl & Hload & Hl).
    rewrite Hfile in Hl. destruct Hl as [-> ->].
    rewrite (run_cycle_not_started sources env flag fs (AttributeError "get")).
    + by rewrite Hload.
    + unfold cycle_start. by rewrite Hload.
  - intros d v Hfile Hseen Hnot.
    destruct (load_state_cases fs) as (doc & evl & Hload & Hl).
    rewrite Hfile in Hl. destruct Hl as [-> ->].
    assert (∃ what, py_set (dict_get d "seen" (PList [])) = Raise (TypeError what))
      as [what Hset].
    { unfold dict_get. rewrite Hseen. simpl.
      destruct v as [|b|z|l]; simpl; eauto. by destruct (Hnot l). }
    exists what.
    rewrite (run_cycle_not_started sources env flag fs (TypeError what)).
    + by rewrite Hload.
    + unfold cycle_start. rewrite Hload. simpl. by rewrite Hset.
Qed.

(** X14.  When the save at the end of a cycle fails, the cycle raises after
    all its attempts have been made and the state file is as before: the
    next cycle starts from the same state and seen set, so it will attempt
    the same links again. *)
Theorem failed_save_loses_the_cycle sources env flag fs state seen p f :
  cycle_start fs = Return (state, seen) →
  urls_parse sources →
  save_fault env = Fault p f →
  ∃ fs' evs,
    run_cycle sources env flag fs = (Raise (failure_exn f), fs', evs) ∧
    attempts evs = fresh_links env seen sources ∧
    fs' !! STATE_FILE = fs !! STATE_FILE ∧
    cycle_start fs' = Return (state, seen).
Proof.
  intros Hstart Hparse Hflt.
  destruct (load_state_silent fs) as (La & _).
  rewrite (run_cycle_started _ _ _ _ _ _ Hstart).
  destruct (scan_sources_spec env flag state seen sources 0 [] fs Hparse)
    as (evs & -> & Ha & _).
  match goal with
  | |- context [save_state ?flt ?st fs] =>
      pose proof (save_state_cases fs st flt) as Hsave;
      destruct (save_state flt st fs) as [[r fs2] evs2]
  end.
  simpl in Hsave. rewrite Hflt in Hsave. destruct Hsave as (_ & -> & Hfile & _).
  exists fs2, ((load_state fs).2 ++ evs). split; [done |].
  split; [by rewrite attempts_app, La |]. split; [done |].
  by rewrite (cycle_start_ext fs2 fs Hfile).
Qed.




(** X16.  A cycle rewrites only the ["seen"] and ["initialized"] entries of
    the state dictionary: every other key of the loaded state is saved back
    with the value it had. *)
Theorem cycle_keeps_other_keys sources env flag fs n fs' evs :
  run_cycle sources env flag fs = (Return n, fs', evs) →
  ∃ state seen d',
    cycle_start fs = Return (state, seen) ∧
    fs' !! STATE_FILE = Some (File (Json (JObject d'))) ∧
    ∀ key, key ≠ "seen" → key ≠ "initialized" → d' !! key = state !! key.
Proof.
  intros Hrun.
  destruct (run_cycle_persists _ _ _ _ _ _ _ Hrun)
    as (state & seen & d' & l & Hstart & Hfile & _ & _ & _ & _ & _ & Hother).
  by exists state, seen, d'.
Qed.

Lemma size_union_bound (X Y : gset string) : size (X ∪ Y) ≤ size X + size Y.
Proof.
  rewrite size_union_alt.
  pose proof (subseteq_size (Y ∖ X) Y ltac:(set_solver)). lia.
Qed.

Lemma size_list_to_set_le (l : list string) :
  size (list_to_set l : gset string) ≤ length l.
Proof.
  induction l as [|x l IH].
  - rewrite list_to_set_nil, size_empty. simpl. lia.
  - rewrite list_to_set_cons. etrans; [apply size_union_bound |].
    rewrite size_singleton. simpl. lia.
Qed.

(** X17.  The number a cycle returns is the number of attempts it made,
    and the seen set in the state file grows by at most that number (by
    less when two sources listed the same link). *)
Theorem returned_count_is_attempts sources env flag fs n fs' evs :
  run_cycle sources env flag fs = (Return n, fs', evs) →
  n = length (attempts evs) ∧
  size (persisted_seen fs') ≤ size (persisted_seen fs) + n.
Proof.
  intros Hrun.
  destruct (run_cycle_complete _ _ _ _ _ _ _ Hrun)
    as (state & seen & Hstart & _ & _ & Hn & Hfile & Ha & _).
  split; [by rewrite Ha |].
  rewrite (persisted_seen_saved _ _ _ _ Hfile).
  rewrite <-(cycle_start_persisted _ _ _ Hstart).
  etrans; [apply size_union_bound |].
  pose proof (size_list_to_set_le (fingerprint <$> fresh_links env seen sources)) as Hle.
  rewrite length_fmap in Hle. lia.
Qed.


Lemma scan_sources_notifier env1 env2 flag state seen sources total_new newly_seen fs :
  net env2 = net env1 →
  (scan_sources env2 flag state seen sources total_new newly_seen fs).1
    = (scan_sources env1 flag state seen sources total_new newly_seen fs).1 ∧
  attempts (scan_sources env2 flag state seen sources total_new newly_seen fs).2
    = attempts (scan_sources env1 flag state seen sources total_new newly_seen fs).2.
Proof.
  intros Hnet. revert total_new newly_seen.
  induction sources as [|src rest IH]; intros total_new newly_seen; [done |].
  destruct (urlparse_netloc (src_url src)) as [domain|] eqn:Hd.
  - rewrite !(scan_sources_cons _ _ _ _ _ _ _ _ _ _ Hd). rewrite Hnet.
    destruct (fetch (net env1 (src_url src)) (src_url src) 2)
      as [[html_text|e] evf] eqn:Hf;
      destruct (fetch_silent _ _ _ _ _ Hf) as (Hfa & _); cbv zeta.
    + destruct (notify_links_spec env1 flag state seen (src_name src)
                  (extract_links html_text (src_pattern src) domain)
                  total_new newly_seen) as (evs1 & -> & Ha1 & _).
      destruct (notify_links_spec env2 flag state seen (src_name src)
                  (extract_links html_text (src_pattern src) domain)
                  total_new newly_seen) as (evs2 & -> & Ha2 & _).
      match goal with
      | |- context [scan_sources env1 flag state seen rest ?t ?n fs] =>
          specialize (IH t n);
          destruct (scan_sources env1 flag state seen rest t n fs) as [[r1 fs1] ev1];
          destruct (scan_sources env2 flag state seen rest t n fs) as [[r2 fs2] ev2]
      end.
      simpl in *. destruct IH as [[= -> ->] IHa]. split; [done |].
      change (evf ++ ?e :: evs2 ++ ev2) with (evf ++ [e] ++ evs2 ++ ev2).
      change (evf ++ ?e :: evs1 ++ ev1) with (evf ++ [e] ++ evs1 ++ ev1).
      by rewrite !attempts_app, Ha1, Ha2, IHa.
    + specialize (IH total_new newly_seen).
      destruct (scan_sources env1 flag state seen rest total_new newly_seen fs)
        as [[r1 fs1] ev1];
      destruct (scan_sources env2 flag state seen rest total_new newly_seen fs)
        as [[r2 fs2] ev2].
      simpl in *. destruct IH as [[= -> ->] IHa]. split; [done |].
      by rewrite !attempts_app, IHa.
  - by rewrite !scan_sources_unparsed.
Qed.

(** X19.  What the Notifier answers changes nothing but the trace of its own
    calls: two cycles that differ only in the Telegram side end the same
    way, leave the same files and attempt the same messages in the same
    order. *)
Theorem notifier_answers_are_ignored sources env1 env2 flag fs :
  net env2 = net env1 →
  save_fault env2 = save_fault env1 →
  (run_cycle sources env2 flag fs).1 = (run_cycle sources env1 flag fs).1 ∧
  attempts (run_cycle sources env2 flag fs).2
    = attempts (run_cycle sources env1 flag fs).2.
Proof.
  intros Hnet Hflt.
  destruct (cycle_start fs) as [[state seen]|e] eqn:Hstart.
  - rewrite !(run_cycle_started _ _ _ _ _ _ Hstart). rewrite Hflt.
    pose proof (scan_sources_notifier env1 env2 flag state seen sources 0 [] fs Hnet)
      as [Hres Hatt].
    destruct (scan_sources env1 flag state seen sources 0 [] fs) as [[r1 fs1] ev1];
    destruct (scan_sources env2 flag state seen sources 0 [] fs) as [[r2 fs2] ev2].
    simpl in *. injection Hres as -> ->.
    destruct r1 as [[t nl]|e].
    + match goal with
      | |- context [save_state ?flt ?st fs1] =>
          destruct (save_state flt st fs1) as [[[[]|e] fs3] evs3]
      end; simpl; (split; [done |]); rewrite !attempts_app; by rewrite Hatt.
    + simpl. split; [done |]. rewrite !attempts_app. by rewrite Hatt.
  - by rewrite !(run_cycle_not_started _ _ _ _ _ Hstart).
Qed.

End CycleMore.

(** ** The further properties at work on the small runtime *)

Lemma fetch_returns_first_ok_witness :
  Demo.flaky 2 = Response 200 "page" ∧
  fetch Demo.flaky "https://example.com/rent" 2 = (Return "page", backoff 2).
Proof.
  split; [reflexivity |].
  apply (fetch_returns_first_ok Demo.flaky "https://example.com/rent" 2 2 "page").
  - lia.
  - reflexivity.
  - intros k Hk. destruct k as [|[|k]]; [reflexivity | reflexivity | lia].
Defined.

Lemma fetch_raises_when_exhausted_witness :
  fetch Demo.down "https://example.com/rent" 2
    = (Raise (RuntimeError ("Errore nel fetch di " +:+ "https://example.com/rent"
                            +:+ ": " +:+ show_last_err (Demo.down 2))),
       backoff (2 + 1)) ∧
  show_last_err (Demo.down 2) = "HTTP 500".
Proof.
  split; [|by vm_compute].
  apply (fetch_raises_when_exhausted Demo.down "https://example.com/rent" 2).
  intros k Hk. destruct k as [|[|[|k]]]; [reflexivity | reflexivity | reflexivity | lia].
Defined.

Lemma fetch_reads_bounded_replies_witness :
  fetch Demo.flaky "https://example.com/rent" 2
    = fetch Demo.flaky_then_silent "https://example.com/rent" 2.
Proof.
  apply (fetch_reads_bounded_replies Demo.flaky Demo.flaky_then_silent
           "https://example.com/rent" 2).
  intros k Hk. destruct k as [|[|[|k]]]; [reflexivity | reflexivity | reflexivity | lia].
Defined.

Lemma save_state_touches_two_paths_witness :
  (save_state (rt := Demo.runtime) Demo.disk_full fresh_state
     {[ "notes.txt" := File (Garbage "hello") ]}).1.2 !! "notes.txt"
  = ({[ "notes.txt" := File (Garbage "hello") ]} : gmap string node) !! "notes.txt".
Proof.
  apply (save_state_touches_two_paths (rt := Demo.runtime)
           {[ "notes.txt" := File (Garbage "hello") ]} fresh_state Demo.disk_full
           "notes.txt").
  - by vm_compute.
  - by vm_compute.
Defined.

Lemma failed_save_loses_the_cycle_witness :
  save_fault (Demo.env_both Demo.telegram_ok Demo.disk_full)
    = Fault At_replace (Os_error "disk full") ∧
  ∃ fs' evs,
    run_cycle (rt := Demo.runtime) Demo.both
      (Demo.env_both Demo.telegram_ok Demo.disk_full) true ∅
      = (Raise (failure_exn (Os_error "disk full")), fs', evs) ∧
    attempts evs
      = fresh_links (rt := Demo.runtime)
          (Demo.env_both Demo.telegram_ok Demo.disk_full) ∅ Demo.both ∧
    fs' !! STATE_FILE (Runtime := Demo.runtime)
      = (∅ : gmap string node) !! STATE_FILE (Runtime := Demo.runtime) ∧
    cycle_start (rt := Demo.runtime) fs' = Return ({[ "seen" := PList [] ]}, ∅).
Proof.
  split; [reflexivity |].
  apply (failed_save_loses_the_cycle (rt := Demo.runtime) Demo.both
           (Demo.env_both Demo.telegram_ok Demo.disk_full) true ∅
           {[ "seen" := PList [] ]} ∅ At_replace (Os_error "disk full")).
  - by vm_compute.
  - repeat constructor; by eexists.
  - reflexivity.
Defined.


Lemma cycle_keeps_other_keys_witness :
  Demo.noted_run = (Return 4, Demo.noted_run.1.2, Demo.noted_run.2) ∧
  ∃ state seen d',
    cycle_start (rt := Demo.runtime) Demo.noted = Return (state, seen) ∧
    Demo.noted_run.1.2 !! STATE_FILE (Runtime := Demo.runtime)
      = Some (File (Json (JObject d'))) ∧
    ∀ key, key ≠ "seen" → key ≠ "initialized" → d' !! key = state !! key.
Proof.
  split; [by vm_compute |].
  apply (cycle_keeps_other_keys (rt := Demo.runtime) Demo.both
           (Demo.env_both Demo.telegram_ok No_fault) false Demo.noted 4
           Demo.noted_run.1.2 Demo.noted_run.2).
  by vm_compute.
Defined.

Lemma returned_count_is_attempts_witness :
  Demo.first_run = (Return 4, Demo.first_run.1.2, Demo.first_run.2) ∧
  4 = length (attempts Demo.first_run.2) ∧
  size (persisted_seen (rt := Demo.runtime) Demo.first_run.1.2)
    ≤ size (persisted_seen (rt := Demo.runtime) ∅) + 4.
Proof.
  split; [by vm_compute |].
  apply (returned_count_is_attempts (rt := Demo.runtime) Demo.both
           (Demo.env_both Demo.telegram_ok No_fault) true ∅ 4
           Demo.first_run.1.2 Demo.first_run.2).
  by vm_compute.
Defined.

(** On the small runtime the two searches list the same two links: four
    attempts, two new fingerprints. *)
Lemma demo_count_exceeds_growth :
  size (persisted_seen (rt := Demo.runtime) Demo.first_run.1.2) = 2.
Proof. by vm_compute. Qed.

Lemma notifier_answers_are_ignored_witness :
  (run_cycle (rt := Demo.runtime) Demo.both
     (Demo.env_both Demo.no_telegram No_fault) true ∅).1
    = (run_cycle (rt := Demo.runtime) Demo.both
         (Demo.env_both Demo.telegram_ok No_fault) true ∅).1 ∧
  attempts (run_cycle (rt := Demo.runtime) Demo.both
              (Demo.env_both Demo.no_telegram No_fault) true ∅).2
    = attempts (run_cycle (rt := Demo.runtime) Demo.both
                  (Demo.env_both Demo.telegram_ok No_fault) true ∅).2.
Proof.
  apply (notifier_answers_are_ignored (rt := Demo.runtime) Demo.both
           (Demo.env_both Demo.telegram_ok No_fault)
           (Demo.env_both Demo.no_telegram No_fault) true ∅).
  - reflexivity.
  - reflexivity.
Defined.
